(** * Volcengine MaaS text-to-speech client: the binary websocket protocol

    A shallow embedding of [models/volcengine_maas/models/tts/tts.py]:
    the frame decoder [_parse_response], the session [_get_audio_data],
    the generator [_invoke_streaming] and the entry point [_invoke],
    followed by the properties of the protocol client.

    Conventions.
    - [bytes] values are lists of [Byte.byte]; a Python [int] is a [Z].
    - A Python [str] is represented by its UTF-8 encoding, held in a Rocq
      [string]: [str(b, "utf-8")] checks that [b] is well-formed UTF-8 and
      [str.encode] gives the bytes back.
    - Python code that mutates an object or raises runs in a small state and
      exception monad; the state survives a raise, as the object does. *)

From Stdlib Require Import ZArith NArith QArith List String Ascii Lia.
From Stdlib.Strings Require Import Byte.
From Stdlib Require Import DecimalString.
From stdpp Require Import base gmap strings list.

Import ListNotations.
Local Open Scope string_scope.
Local Open Scope list_scope.
Local Open Scope Z_scope.

(** ** Python values *)

Abbreviation bytes := (list byte).

(** The integer a byte stands for, as [response[i]] gives it. *)
Definition byte_val (b : byte) : Z := Z.of_N (Byte.to_N b).

(** The byte of an integer in [0, 256). *)
Definition byte_of_Z (z : Z) : byte :=
  match Byte.of_N (Z.to_N (z mod 256)) with
  | Some b => b
  | None => x00
  end.

(** [int.from_bytes(bs, "big", signed=False)]. *)
Definition int_from_bytes_unsigned (bs : bytes) : Z :=
  fold_left (fun acc b => acc * 256 + byte_val b) bs 0.

(** [int.from_bytes(bs, "big", signed=True)]: two's complement on
    [8 * len(bs)] bits; the empty byte string gives 0. *)
Definition int_from_bytes_signed (bs : bytes) : Z :=
  let u := int_from_bytes_unsigned bs in
  let w := 8 * Z.of_nat (length bs) in
  if Z.testbit u (w - 1) then u - 2 ^ w else u.

(** The exceptions that the modelled code and the library calls in it raise. *)
Inductive exn : Type :=
| IndexError
| KeyError (key : string)
| OverflowError
| BadGzipFile
| EOFError
| ZlibError
| UnicodeDecodeError
| InvokeBadRequestError (msg : string)
| ConnectionClosed
| OSError (msg : string).

Inductive outcome (A : Type) : Type :=
| Ok (a : A)
| Raise (e : exn).
Arguments Ok {A} a.
Arguments Raise {A} e.

(** ** State and exception monad *)

Module PyM.

Definition M (S A : Type) : Type := S -> outcome A * S.

Definition ret {S A} (a : A) : M S A := fun s => (Ok a, s).

Definition raise {S A} (e : exn) : M S A := fun s => (Raise e, s).

Definition bind {S A B} (m : M S A) (k : A -> M S B) : M S B :=
  fun s =>
    match m s with
    | (Ok a, s') => k a s'
    | (Raise e, s') => (Raise e, s')
    end.

Definition lift {S A} (o : outcome A) : M S A := fun s => (o, s).

Definition modify {S} (f : S -> S) : M S unit := fun s => (Ok tt, f s).

(** [try: m finally: h], for a handler [h] that does not raise. *)
Definition finally {S A} (m : M S A) (h : S -> S) : M S A :=
  fun s => let (r, s') := m s in (r, h s').

End PyM.
Import PyM.

Notation "'let*' x ':=' m 'in' k" := (bind m (fun x => k))
  (at level 10, x name, m at level 100, k at level 200).
Notation "'do' m 'in' k" := (bind m (fun _ => k))
  (at level 10, m at level 100, k at level 200).

(** ** Library calls *)

(** [b[i]] on bytes: the integer at index [i], or [IndexError]. *)
Definition getitem (b : bytes) (i : nat) : outcome Z :=
  match b !! i with
  | Some x => Ok (byte_val x)
  | None => Raise IndexError
  end.

(** Well-formed UTF-8, as the strict decoder of [str(b, "utf-8")] accepts it:
    shortest forms only, no surrogates, nothing above U+10FFFF. *)
Definition in_range (lo hi : Z) (b : byte) : bool :=
  (lo <=? byte_val b) && (byte_val b <=? hi).

Definition is_cont (b : byte) : bool := in_range 0x80 0xBF b.

Fixpoint utf8_valid (bs : bytes) : bool :=
  match bs with
  | [] => true
  | b0 :: t0 =>
    if in_range 0x00 0x7F b0 then utf8_valid t0
    else
      match t0 with
      | [] => false
      | b1 :: t1 =>
        if in_range 0xC2 0xDF b0 then is_cont b1 && utf8_valid t1
        else
          match t1 with
          | [] => false
          | b2 :: t2 =>
            if in_range 0xE0 0xEF b0 then
              (if byte_val b0 =? 0xE0 then in_range 0xA0 0xBF b1
               else if byte_val b0 =? 0xED then in_range 0x80 0x9F b1
               else is_cont b1)
              && is_cont b2 && utf8_valid t2
            else
              match t2 with
              | [] => false
              | b3 :: t3 =>
                if in_range 0xF0 0xF4 b0 then
                  (if byte_val b0 =? 0xF0 then in_range 0x90 0xBF b1
                   else if byte_val b0 =? 0xF4 then in_range 0x80 0x8F b1
                   else is_cont b1)
                  && is_cont b2 && is_cont b3 && utf8_valid t3
                else false
              end
          end
      end
  end.

(** [str(b, "utf-8")]. *)
Definition str_utf8 (b : bytes) : outcome string :=
  if utf8_valid b then Ok (string_of_list_byte b) else Raise UnicodeDecodeError.

(** [str.encode(s)]. *)
Definition str_encode (s : string) : bytes := list_byte_of_string s.

(** [str(n)] for an integer, as an f-string renders it. *)
Definition str_of_int (n : Z) : string := NilZero.string_of_int (Z.to_int n).

(** [n.to_bytes(4, "big")] for a length [n]. *)
Definition to_bytes4 (n : Z) : outcome bytes :=
  if (0 <=? n) && (n <? 2 ^ 32) then
    Ok [byte_of_Z (n / 2 ^ 24); byte_of_Z (n / 2 ^ 16); byte_of_Z (n / 2 ^ 8); byte_of_Z n]
  else Raise OverflowError.

(** An [io.BytesIO] that is only written to: its contents. *)
Definition BytesIO : Type := bytes.

(** [audio_buffer.write(data)]. *)
Definition write (data : bytes) : M BytesIO unit := modify (fun buf => buf ++ data).

(** ** The frame decoder *)

Section Decoder.

(** [gzip.decompress] once the magic number has been accepted: inflation of
    the members, with its CRC and length checks. It raises [EOFError],
    [BadGzipFile] or [ZlibError] on bad data. *)
Variable gunzip_members : bytes -> outcome bytes.

(** [gzip.decompress(data)]: empty data decompresses to nothing; data that
    does not start with the magic number 1f 8b is refused with
    [BadGzipFile]. *)
Definition gzip_decompress (data : bytes) : outcome bytes :=
  match data with
  | [] => Ok []
  | x1f :: x8b :: _ => gunzip_members data
  | _ => Raise BadGzipFile
  end.

(** The fields read under [# Parse header]. *)
Record header : Type := Header {
  message_type : Z;
  message_type_specific_flags : Z;
  message_compression : Z;
  header_size : Z;
  payload : bytes
}.

Definition parse_header {S} (response : bytes) : M S header :=
  let* r1 := lift (getitem response 1) in
  let message_type := Z.shiftr r1 4 in
  let* r1' := lift (getitem response 1) in
  let message_type_specific_flags := Z.land r1' 0x0f in
  let* r2 := lift (getitem response 2) in
  let message_compression := Z.land r2 0x0f in
  let* r0 := lift (getitem response 0) in
  let header_size := Z.land r0 0x0f in
  let payload := drop (Z.to_nat (header_size * 4)) response in
  ret (Header message_type message_type_specific_flags message_compression
              header_size payload).

(** [_parse_response(response, audio_buffer)]: the state is the contents of
    [audio_buffer]; the result is the [done] flag of the receive loop. *)
Definition _parse_response (response : bytes) : M BytesIO bool :=
  let* h := parse_header response in
  let payload := payload h in
  (* Handle audio response *)
  if message_type h =? 0xb then
    if message_type_specific_flags h =? 0 then ret false
    else
      let sequence_number := int_from_bytes_signed (take 4 payload) in
      let payload_size := int_from_bytes_unsigned (take 4 (drop 4 payload)) in
      let audio_data := drop 8 payload in
      do write audio_data in
      ret (sequence_number <? 0)
  (* Handle error response *)
  else if message_type h =? 0xf then
    let code := int_from_bytes_unsigned (take 4 payload) in
    let msg_size := int_from_bytes_unsigned (take 4 (drop 4 payload)) in
    let error_msg := drop 8 payload in
    let* error_msg :=
      lift (if message_compression h =? 1 then gzip_decompress error_msg
            else Ok error_msg) in
    let* error_msg := lift (str_utf8 error_msg) in
    raise (InvokeBadRequestError
             ("Error code " +:+ str_of_int code +:+ ": " +:+ error_msg))
  (* Handle frontend response *)
  else if message_type h =? 0xc then
    let msg_size := int_from_bytes_unsigned (take 4 payload) in
    let msg_payload := drop 4 payload in
    let* msg_payload :=
      lift (if message_compression h =? 1 then gzip_decompress msg_payload
            else Ok msg_payload) in
    ret true
  else ret false.

End Decoder.

(** ** The request object *)

(** The values the request dictionary is made of. A dictionary keeps its
    insertion order, which [json.dumps] follows. *)
#[warnings="-register-all"]
Inductive json : Type :=
| JNone
| JStr (s : string)
| JFloat (q : Q)
| JDict (items : list (string * json)).

Fixpoint assoc_set (k : string) (v : json) (items : list (string * json))
  : list (string * json) :=
  match items with
  | [] => [(k, v)]
  | (k', v') :: rest =>
    if String.eqb k' k then (k', v) :: rest else (k', v') :: assoc_set k v rest
  end.

(** [d[k] = v]. *)
Definition dict_setitem (k : string) (v : json) (d : json) : json :=
  match d with
  | JDict items => JDict (assoc_set k v items)
  | _ => d
  end.

Fixpoint assoc_get (k : string) (items : list (string * json)) : option json :=
  match items with
  | [] => None
  | (k', v) :: rest => if String.eqb k' k then Some v else assoc_get k rest
  end.

(** [d.get(k)] on a request dictionary. *)
Definition dict_get (k : string) (d : json) : option json :=
  match d with
  | JDict items => assoc_get k items
  | _ => None
  end.

(** A string or [None], as [credentials.get(key)] returns it. *)
Definition json_of_get (o : option string) : json :=
  match o with
  | Some s => JStr s
  | None => JNone
  end.

(** ** The transport *)

(** What one websocket connection will do: refuse the handshake with an
    exception, or deliver frames and then close. *)
Record script : Type := Script {
  refuse : option exn;
  incoming : list bytes
}.

Inductive event : Type :=
| EvConnect (url : string) (extra_headers : list (string * string))
| EvSend (data : bytes)
| EvRecv (data : bytes)
| EvClose.

(** The environment of a run: the connections still to come, the number of
    [uuid.uuid4()] calls made, and what has happened on the network. *)
Record world : Type := World {
  servers : list script;
  uuid_calls : nat;
  trace : list event
}.

Definition log (e : event) : M world unit :=
  modify (fun w => World (servers w) (uuid_calls w) (trace w ++ [e])).

(** [websockets.connect(url, extra_headers=headers, ping_interval=None)]
    entered as a context manager: the connection, seen as the frames it will
    deliver. *)
Definition ws_connect (url : string) (headers : list (string * string))
  : M world (list bytes) :=
  fun w =>
    match servers w with
    | [] => (Raise (OSError "connection refused"), w)
    | sc :: rest =>
      match refuse sc with
      | Some e => (Raise e, World rest (uuid_calls w) (trace w))
      | None =>
        (Ok (incoming sc),
         World rest (uuid_calls w) (trace w ++ [EvConnect url headers]))
      end
    end.

(** [ws.send(data)]. *)
Definition ws_send (data : bytes) : M world unit := log (EvSend data).

(** Leaving the [async with] block closes the connection. *)
Definition ws_close (w : world) : world :=
  World (servers w) (uuid_calls w) (trace w ++ [EvClose]).

(** [credentials[key]]. *)
Definition dict_getitem {S} (d : gmap string string) (key : string) : M S string :=
  match d !! key with
  | Some v => ret v
  | None => raise (KeyError key)
  end.

(** ** The session and the generator *)

Section Client.

Variable gunzip_members : bytes -> outcome bytes.
(** [gzip.compress] and [json.dumps]. *)
Variable gzip_compress : bytes -> bytes.
Variable json_dumps : json -> string.
(** The string of the [n]-th [uuid.uuid4()] of the run. *)
Variable uuid4_str : nat -> string.

Definition uuid4 : M world string :=
  fun w => (Ok (uuid4_str (uuid_calls w)),
            World (servers w) (S (uuid_calls w)) (trace w)).

Definition DEFAULT_HEADER : bytes := [x11; x10; x11; x00].

(** The frame built under [# Prepare request payload] and
    [# Create full request]. *)
Definition full_client_request {S} (request_json : json) : M S bytes :=
  let payload_bytes := str_encode (json_dumps request_json) in
  let payload_bytes := gzip_compress payload_bytes in
  let full_client_request := DEFAULT_HEADER in
  let* len4 := lift (to_bytes4 (Z.of_nat (length payload_bytes))) in
  let full_client_request := full_client_request ++ len4 in
  let full_client_request := full_client_request ++ payload_bytes in
  ret full_client_request.

(** Run the decoder on the session's buffer; a raise leaves the function,
    and the buffer with it. *)
Definition on_buffer {A} (m : M BytesIO A) (audio_buffer : BytesIO)
  : M world (A * BytesIO) :=
  fun w =>
    match m audio_buffer with
    | (Ok a, buf) => (Ok (a, buf), w)
    | (Raise e, _) => (Raise e, w)
    end.

(** The [while True] loop over [ws.recv()]; a connection with no frame
    left is closed, and [recv] raises. *)
Fixpoint recv_loop (ws : list bytes) (audio_buffer : BytesIO) : M world BytesIO :=
  match ws with
  | [] => raise ConnectionClosed
  | response :: ws' =>
    do log (EvRecv response) in
    let* r := on_buffer (_parse_response gunzip_members response) audio_buffer in
    let (done, audio_buffer) := r in
    if done then ret audio_buffer else recv_loop ws' audio_buffer
  end.

Definition _get_audio_data (request_json : json) (credentials : gmap string string)
  : M world bytes :=
  let host := default "wss://openspeech.bytedance.com"
                      (credentials !! "api_endpoint_host") in
  let api_url := host +:+ "/api/v1/tts/ws_binary" in
  let* full_client_request := full_client_request request_json in
  let* key := dict_getitem credentials "volc_access_key_id" in
  let headers := [("Authorization", "Bearer; " +:+ key)] in
  let audio_buffer : BytesIO := [] in
  let* ws := ws_connect api_url headers in
  let* audio_buffer :=
    finally (do ws_send full_client_request in recv_loop ws audio_buffer)
            ws_close in
  ret audio_buffer.

(** Methods inherited from the plugin framework's [TTSModel]. *)
Record voice_entry : Type := VoiceEntry { name : string; value : string }.
Variable get_tts_model_voices : string -> gmap string string -> list voice_entry.
Variable _get_model_default_voice : string -> gmap string string -> string.
Variable _get_model_word_limit : string -> gmap string string -> Z.
Variable _get_model_audio_type : string -> gmap string string -> string.
Variable _split_text_into_sentences : string -> Z -> list string.

(** [user or str(uuid.uuid4())]. *)
Definition user_or_uuid (user : option string) : M world string :=
  match user with
  | Some u => if String.eqb u "" then uuid4 else ret u
  | None => uuid4
  end.

Definition base_request (credentials : gmap string string) (uid voice audio_type : string)
  : json :=
  JDict [
    ("app", JDict [
      ("appid", json_of_get (credentials !! "endpoint_id"));
      ("token", json_of_get (credentials !! "volc_access_key_id"));
      ("cluster", json_of_get (credentials !! "volc_region"))
    ]);
    ("user", JDict [
      ("uid", JStr uid)
    ]);
    ("audio", JDict [
      ("voice_type", JStr voice);
      ("encoding", JStr audio_type);
      ("speed_ratio", JFloat 1);
      ("volume_ratio", JFloat 1);
      ("pitch_ratio", JFloat 1)
    ])
  ].

(** The request of one sentence: a copy of the base request with its
    ["request"] entry set. *)
Definition sentence_request (base_request : json) (reqid sentence : string) : json :=
  let request := base_request in
  dict_setitem "request" (JDict [
      ("reqid", JStr reqid);
      ("text", JStr sentence);
      ("text_type", JStr "plain");
      ("operation", JStr "submit")
    ]) request.

(** A generator object of [_invoke_streaming]: not yet started, suspended
    at its [yield] with the sentences still to come, or finished. *)
Inductive generator : Type :=
| GenCreated (model : string) (credentials : gmap string string)
             (content_text voice : string) (user : option string)
| GenSuspended (base_request : json) (credentials : gmap string string)
               (sentences : list string)
| GenFinished.

(** The [for sentence in sentences] loop, run up to its next [yield]
    ([Some chunk]) or to the end of the generator ([None]). *)
Definition for_sentences (base_request : json) (credentials : gmap string string)
           (sentences : list string) : M world (option bytes * generator) :=
  match sentences with
  | [] => ret (None, GenFinished)
  | sentence :: rest =>
    let* reqid := uuid4 in
    let request := sentence_request base_request reqid sentence in
    let* chunk := _get_audio_data request credentials in
    ret (Some chunk, GenSuspended base_request credentials rest)
  end.

(** [next(g)]: the yielded chunk or [None] for [StopIteration], with the
    generator as it is afterwards. A generator that raises is finished. *)
Definition gen_next (g : generator) : M world (option bytes * generator) :=
  match g with
  | GenCreated model credentials content_text voice user =>
    let word_limit := _get_model_word_limit model credentials in
    let audio_type := _get_model_audio_type model credentials in
    let sentences := _split_text_into_sentences content_text word_limit in
    let* uid := user_or_uuid user in
    let base_request := base_request credentials uid voice audio_type in
    for_sentences base_request credentials sentences
  | GenSuspended base_request credentials sentences =>
    for_sentences base_request credentials sentences
  | GenFinished => ret (None, GenFinished)
  end.

Definition _invoke_streaming (model : string) (credentials : gmap string string)
           (content_text voice : string) (user : option string) : generator :=
  GenCreated model credentials content_text voice user.

(** [voice not in [d["value"] for d in ...]]. *)
Definition voice_listed (voice : string) (voices : list voice_entry) : bool :=
  existsb (String.eqb voice) (map value voices).

Definition _invoke (model tenant_id : string) (credentials : gmap string string)
           (content_text voice : string) (user : option string) : generator :=
  let voice :=
    if String.eqb voice "" || negb (voice_listed voice (get_tts_model_voices model credentials))
    then _get_model_default_voice model credentials
    else voice in
  _invoke_streaming model credentials content_text voice user.

(** How a caller's consumption of a generator ends. *)
Inductive ending : Type :=
| Suspended
| Stopped
| Raised (e : exn).

(** A caller that asks for at most [n] items: the chunks it gets, how the
    iteration ended, and the generator and the world after it. *)
Fixpoint pull (n : nat) (g : generator) (w : world)
  : list bytes * ending * generator * world :=
  match n with
  | O => ([], Suspended, g, w)
  | S n' =>
    match gen_next g w with
    | (Ok (Some chunk, g'), w') =>
      let '(out, e, g'', w'') := pull n' g' w' in (chunk :: out, e, g'', w'')
    | (Ok (None, g'), w') => ([], Stopped, g', w')
    | (Raise e, w') => ([], Raised e, GenFinished, w')
    end
  end.

End Client.

(** ** Credential validation *)

(** [CredentialsValidateFailedError(str(ex))], by the exception it reports. *)
Inductive validation_error : Type :=
| CredentialsValidateFailedError (cause : exn).

Section Validation.

Variable get_tts_model_voices : string -> gmap string string -> list voice_entry.
Variable _get_model_default_voice : string -> gmap string string -> string.

(** [validate_credentials]: [_invoke] is called on the text "Hello Dify!"
    with the default voice inside [try ... except Exception]; what it
    returns, a generator, is dropped. *)
Definition validate_credentials (model : string) (credentials : gmap string string)
           (user : option string) : world -> (validation_error + unit) * world :=
  fun w =>
    match ret (_invoke get_tts_model_voices _get_model_default_voice
                       model "" credentials "Hello Dify!"
                       (_get_model_default_voice model credentials) user) w with
    | (Ok _, w') => (inr tt, w')
    | (Raise ex, w') => (inl (CredentialsValidateFailedError ex), w')
    end.

End Validation.

(** * Vocabulary of the statements *)

(** The world after the frames [frames] have been received. *)
Definition received (frames : list bytes) (w : world) : world :=
  World (servers w) (uuid_calls w) (trace w ++ map EvRecv frames).

(** [continues g pre buf] is the buffer after the frames [pre], when the
    decoder answers each of them with [False] (more data expected). *)
Fixpoint continues (gunzip_members : bytes -> outcome bytes)
         (pre : list bytes) (buf : BytesIO) : option BytesIO :=
  match pre with
  | [] => Some buf
  | response :: pre' =>
    match _parse_response gunzip_members response buf with
    | (Ok false, buf') => continues gunzip_members pre' buf'
    | _ => None
    end
  end.

(** The events of one session: none when it fails before the handshake is
    done, otherwise a connect, the request, the frames received, a close. *)
Definition session_events (evs : list event) : Prop :=
  evs = [] \/
  exists url headers data frames,
    evs = EvConnect url headers :: EvSend data :: map EvRecv frames ++ [EvClose].

(** The frames sent in a trace, in order. *)
Definition sends (evs : list event) : list bytes :=
  omap (fun e => match e with EvSend data => Some data | _ => None end) evs.

(** The address a session connects to. *)
Definition api_url (credentials : gmap string string) : string :=
  default "wss://openspeech.bytedance.com" (credentials !! "api_endpoint_host")
    +:+ "/api/v1/tts/ws_binary".

(** The world after one [uuid.uuid4()]. *)
Definition after_uuid (w : world) : world :=
  World (servers w) (S (uuid_calls w)) (trace w).

(** [data] is the request frame of the sentence [sentence], for some
    request id. *)
Definition sent_for (gzip_compress : bytes -> bytes) (json_dumps : json -> string)
           (base_request : json) (data : bytes) (sentence : string) : Prop :=
  exists reqid,
    full_client_request gzip_compress json_dumps
      (sentence_request base_request reqid sentence) tt = (Ok data, tt).

(** The voice a request asks for: [request["audio"]["voice_type"]]. *)
Definition voice_type_of (request : json) : option json :=
  match dict_get "audio" request with
  | Some audio => dict_get "voice_type" audio
  | None => None
  end.

(** The text a request asks for: [request["request"]["text"]]. *)
Definition text_of (request : json) : option json :=
  match dict_get "request" request with
  | Some r => dict_get "text" r
  | None => None
  end.

(** [data] is the frame of a request for the text [sentence]. *)
Definition request_frame_for (gzip_compress : bytes -> bytes) (json_dumps : json -> string)
           (data : bytes) (sentence : string) : Prop :=
  exists request,
    full_client_request gzip_compress json_dumps request tt = (Ok data, tt) /\
    text_of request = Some (JStr sentence).

(** ** Sample frames and a stand-in environment

    Frames as a server sends them, all with header byte 0 = 0x11, and
    stand-ins for the library functions, to run the model on. *)

(** Audio, sequence number 1, declared size 2, two bytes of audio. *)
Definition frame_audio_more : bytes :=
  [x11; xb1; x10; x00; x00; x00; x00; x01; x00; x00; x00; x02] ++ str_encode "ab".

(** Audio, sequence number -1 with flag 3 (sequence number < 0), two bytes. *)
Definition frame_audio_final : bytes :=
  [x11; xb3; x10; x00; xff; xff; xff; xff; x00; x00; x00; x02] ++ str_encode "cd".

(** Audio without sequence number: an acknowledgment. *)
Definition frame_ack : bytes := [x11; xb0; x10; x00].

(** Audio, sequence number 1, declared size 10, but two bytes of audio. *)
Definition frame_audio_truncated : bytes :=
  [x11; xb1; x10; x00; x00; x00; x00; x01; x00; x00; x00; x0a] ++ str_encode "ab".

(** Audio with a sequence number and a payload of three bytes only. *)
Definition frame_audio_no_prefix : bytes := [x11; xb1; x10; x00; xff; xff; xff].

(** Error 45000001 with the message "invalid token", not compressed. *)
Definition frame_error : bytes :=
  [x11; xf0; x10; x00; x02; xae; xa5; x41; x00; x00; x00; x0d]
    ++ str_encode "invalid token".

(** Error 45000001 marked as gzip, with a message that is not gzip data. *)
Definition frame_error_bad_gzip : bytes :=
  [x11; xf0; x11; x00; x02; xae; xa5; x41; x00; x00; x00; x0d]
    ++ str_encode "invalid token".

(** Frontend message, not compressed. *)
Definition frame_frontend : bytes :=
  [x11; xc0; x10; x00; x00; x00; x00; x02] ++ str_encode "{}".

(** An inflation that accepts nothing. *)
Definition no_gunzip (_ : bytes) : outcome bytes := Raise ZlibError.

(** A compression that stores, a serializer that writes the text of a
    request and nothing else, and a source of request ids. *)
Definition stored_compress (data : bytes) : bytes := data.
Definition plain_json_dumps (request : json) : string :=
  match text_of request with
  | Some (JStr text) => text
  | _ => "{}"
  end.
Definition numbered_uuid (n : nat) : string := "uuid-" +:+ str_of_int (Z.of_nat n).

(** A model with one voice, and a text of two sentences. *)
Definition sample_voices (_ : string) (_ : gmap string string) : list voice_entry :=
  [VoiceEntry "Sample" "BV001"].
Definition sample_default_voice (_ : string) (_ : gmap string string) : string := "BV001".
Definition sample_word_limit (_ : string) (_ : gmap string string) : Z := 20.
Definition sample_audio_type (_ : string) (_ : gmap string string) : string := "mp3".
Definition sample_split (_ : string) (_ : Z) : list string := ["Hello."; "Dify!"].

Definition sample_credentials : gmap string string :=
  {[ "volc_access_key_id" := "key" ]}.

(** A server that answers the first connection with an acknowledgment and
    two audio frames, and the second one with an error. *)
Definition sample_world : world :=
  World [Script None [frame_ack; frame_audio_more; frame_audio_final];
         Script None [frame_error]]
        0 [].

Definition sample_pull (n : nat) (voice : string)
  : list bytes * ending * generator * world :=
  pull no_gunzip stored_compress plain_json_dumps numbered_uuid
       sample_word_limit sample_audio_type sample_split n
       (_invoke sample_voices sample_default_voice
                "tts" "" sample_credentials "Hello. Dify!" voice (Some "user"))
       sample_world.

(** What a caller who asks for three chunks gets. *)
Definition sample_run : list bytes * ending * generator * world :=
  Eval vm_compute in sample_pull 3 "".

(** The same run with the voice already chosen, and a caller that stops
    after the first chunk. *)
Definition sample_stream (n : nat) : list bytes * ending * generator * world :=
  pull no_gunzip stored_compress plain_json_dumps numbered_uuid
       sample_word_limit sample_audio_type sample_split n
       (_invoke_streaming "tts" sample_credentials "Hello. Dify!" "BV001" (Some "user"))
       sample_world.

Definition sample_first : list bytes * ending * generator * world :=
  Eval vm_compute in sample_stream 1.

(** ** The orchestration, as the specification words it *)

Section Orchestration.

Variable gunzip_members : bytes -> outcome bytes.
Variable gzip_compress : bytes -> bytes.
Variable json_dumps : json -> string.
Variable uuid4_str : nat -> string.

(** One session per chunk, in the order of the chunks, each run to its end
    before the next one begins; the buffer of a chunk is what its session
    returns; at the first session that fails the failure is the result, and
    no later session is run. [n] is the number of chunks the caller asks
    for. *)
Fixpoint sessions_in_order (n : nat) (base_request : json)
         (credentials : gmap string string) (sentences : list string) (w : world)
  : list bytes * ending * world :=
  match n with
  | O => ([], Suspended, w)
  | S n' =>
    match sentences with
    | [] => ([], Stopped, w)
    | sentence :: rest =>
      match _get_audio_data gunzip_members gzip_compress json_dumps
              (sentence_request base_request (uuid4_str (uuid_calls w)) sentence)
              credentials (after_uuid w) with
      | (Ok chunk, w1) =>
        let '(out, e, w2) := sessions_in_order n' base_request credentials rest w1 in
        (chunk :: out, e, w2)
      | (Raise ex, w1) => ([], Raised ex, w1)
      end
    end
  end.

(** The world after the sessions of the first [k] chunks. *)
Definition world_after (k : nat) (base_request : json)
           (credentials : gmap string string) (sentences : list string) (w : world)
  : world :=
  snd (sessions_in_order k base_request credentials sentences w).

End Orchestration.

(** ** Frames by what the decoder makes of them *)

(** The header of a frame, when it has one. *)
Definition header_of (response : bytes) : option header :=
  match parse_header response tt with
  | (Ok h, _) => Some h
  | (Raise _, _) => None
  end.

(** An audio frame with a sequence number. *)
Definition is_sequenced_audio (response : bytes) : bool :=
  match header_of response with
  | Some h => (message_type h =? 0xb) && negb (message_type_specific_flags h =? 0)
  | None => false
  end.

(** A frame the decoder passes over: an acknowledgment, or a message type
    that is neither audio, error nor frontend. *)
Definition is_skipped (response : bytes) : bool :=
  match header_of response with
  | Some h =>
    if message_type h =? 0xb then message_type_specific_flags h =? 0
    else negb (message_type h =? 0xf) && negb (message_type h =? 0xc)
  | None => false
  end.

(** The audio bytes and the sequence number a frame carries. *)
Definition frame_audio (response : bytes) : bytes :=
  match header_of response with
  | Some h => if is_sequenced_audio response then drop 8 (payload h) else []
  | None => []
  end.

Definition frame_sequence (response : bytes) : Z :=
  match header_of response with
  | Some h => int_from_bytes_signed (take 4 (payload h))
  | None => 0
  end.

(** Frames after which more is expected, and frames that end the stream. *)
Definition more_frame (response : bytes) : bool :=
  is_skipped response
  || (is_sequenced_audio response && (0 <=? frame_sequence response)).

Definition final_frame (response : bytes) : bool :=
  is_sequenced_audio response && (frame_sequence response <? 0).

(** The user id of a run: the caller's, or the first uuid drawn. *)
Definition run_uid (uuid4_str : nat -> string) (user : option string) (w : world) : string :=
  match user with
  | Some u => if String.eqb u "" then uuid4_str (uuid_calls w) else u
  | None => uuid4_str (uuid_calls w)
  end.

(** The number of uuids drawn for the user id: one when the caller gave none. *)
Definition uid_draws (user : option string) : nat :=
  match user with
  | Some u => if String.eqb u "" then 1%nat else 0%nat
  | None => 1%nat
  end.

(** More sample frames: a message type the decoder does not know, an audio
    frame whose header takes the whole frame, and an error frame with no
    payload that is marked as gzip. *)
Definition frame_unknown : bytes := [x11; x90; x10; x00] ++ str_encode "ok".
Definition frame_audio_all_header : bytes := [x12; xb1; x10; x00; xff; xff; xff; xff].
Definition frame_error_empty : bytes := [x11; xf0; x11; x00].

(** A serializer that writes the same for every request, a text without
    sentences, and credentials without access key. *)
Definition const_json_dumps (_ : json) : string := "{}".
Definition no_split (_ : string) (_ : Z) : list string := [].
Definition no_credentials : gmap string string := ∅.

(** Unfold the decoder at a frame whose header is known. *)
Ltac with_header H :=
  unfold _parse_response, bind; rewrite H; cbn beta iota.

(** * Properties *)

Set Default Proof Using "Type".

(** ** Bytes and integers *)

Lemma byte_val_range (b : byte) : 0 <= byte_val b < 256.
Proof.
  unfold byte_val. pose proof (Byte.to_N_bounded b) as Hb.
  split; [apply N2Z.is_nonneg | lia].
Qed.

Lemma high_nibble (b : byte) : Z.shiftr (byte_val b) 4 = byte_val b / 16.
Proof. rewrite Z.shiftr_div_pow2 by lia. reflexivity. Qed.

Lemma low_nibble (b : byte) : Z.land (byte_val b) 0x0f = byte_val b mod 16.
Proof. change 0x0f with (Z.ones 4). rewrite Z.land_ones by lia. reflexivity. Qed.

Lemma byte_val_of_Z (z : Z) : 0 <= z < 256 -> byte_val (byte_of_Z z) = z.
Proof.
  intros Hz. unfold byte_of_Z, byte_val.
  rewrite Z.mod_small by lia.
  destruct (Byte.of_N (Z.to_N z)) as [b|] eqn:E.
  - apply Byte.to_of_N in E. rewrite E. lia.
  - apply Byte.of_N_None_iff in E. lia.
Qed.

Lemma byte_val_of_Z_mod (z : Z) : byte_val (byte_of_Z z) = z mod 256.
Proof.
  assert (H : byte_of_Z z = byte_of_Z (z mod 256)).
  { unfold byte_of_Z. rewrite Z.mod_mod by lia. reflexivity. }
  rewrite H. apply byte_val_of_Z. apply Z.mod_pos_bound. lia.
Qed.

Lemma int_from_bytes_unsigned_snoc (bs : bytes) (b : byte) :
  int_from_bytes_unsigned (bs ++ [b]) = int_from_bytes_unsigned bs * 256 + byte_val b.
Proof. unfold int_from_bytes_unsigned. rewrite fold_left_app. reflexivity. Qed.

(** Reading back the four bytes of a length gives the length. *)
Lemma to_bytes4_from_bytes (n : Z) (len4 : bytes) :
  to_bytes4 n = Ok len4 ->
  length len4 = 4%nat /\ int_from_bytes_unsigned len4 = n.
Proof.
  unfold to_bytes4. destruct ((0 <=? n) && (n <? 2 ^ 32)) eqn:E; [|discriminate].
  intros [= <-]. split; [reflexivity|].
  apply andb_prop in E as [H0 H1].
  apply Z.leb_le in H0. apply Z.ltb_lt in H1.
  unfold int_from_bytes_unsigned. cbn [fold_left].
  rewrite !byte_val_of_Z_mod.
  change (2 ^ 24) with 16777216. change (2 ^ 16) with 65536.
  change (2 ^ 8) with 256. change (2 ^ 32) with 4294967296 in H1.
  pose proof (Z.div_mod n 256 ltac:(lia)) as D0.
  pose proof (Z.div_mod (n / 256) 256 ltac:(lia)) as D1.
  pose proof (Z.div_mod (n / 256 / 256) 256 ltac:(lia)) as D2.
  rewrite !Z.div_div in D1, D2 by lia.
  rewrite Z.div_div in D2 by lia.
  change (256 * 256) with 65536 in *. change (65536 * 256) with 16777216 in *.
  assert (H3 : 0 <= n / 16777216 < 256).
  { split; [apply Z.div_pos; lia | apply Z.div_lt_upper_bound; lia]. }
  rewrite (Z.mod_small (n / 16777216)) by lia.
  lia.
Qed.

Lemma to_bytes4_ok (n : Z) :
  0 <= n < 2 ^ 32 -> exists len4, to_bytes4 n = Ok len4.
Proof.
  intros [H0 H1]. unfold to_bytes4.
  apply Z.leb_le in H0. apply Z.ltb_lt in H1. rewrite H0, H1. eauto.
Qed.

Lemma int_from_bytes_unsigned_range (bs : bytes) :
  0 <= int_from_bytes_unsigned bs < 2 ^ (8 * Z.of_nat (length bs)).
Proof.
  induction bs as [|b bs IH] using rev_ind.
  - cbn. lia.
  - rewrite int_from_bytes_unsigned_snoc, length_app. cbn [length].
    replace (8 * Z.of_nat (length bs + 1)) with (8 * Z.of_nat (length bs) + 8) by lia.
    rewrite Z.pow_add_r by lia. change (2 ^ 8) with 256.
    pose proof (byte_val_range b). nia.
Qed.

(** The signed reading is the two's complement of the unsigned one: it is
    negative exactly when the first bit of the first byte is set. *)
Lemma int_from_bytes_signed_eq (bs : bytes) :
  bs <> [] ->
  let w := 8 * Z.of_nat (length bs) in
  int_from_bytes_signed bs =
  if 2 ^ (w - 1) <=? int_from_bytes_unsigned bs
  then int_from_bytes_unsigned bs - 2 ^ w
  else int_from_bytes_unsigned bs.
Proof.
  intros Hne w. unfold int_from_bytes_signed. fold w.
  pose proof (int_from_bytes_unsigned_range bs) as R. fold w in R.
  set (u := int_from_bytes_unsigned bs) in *.
  assert (Hw : 0 < w).
  { unfold w. destruct bs; [contradiction | cbn [length]; lia]. }
  rewrite Z.testbit_eqb by lia.
  assert (Hp : 2 ^ w = 2 * 2 ^ (w - 1)).
  { rewrite <- Z.pow_succ_r by lia. f_equal. lia. }
  assert (Hq : 0 < 2 ^ (w - 1)) by (apply Z.pow_pos_nonneg; lia).
  destruct (Z.leb_spec (2 ^ (w - 1)) u) as [Hge | Hlt].
  - assert (u / 2 ^ (w - 1) = 1) as ->; [|reflexivity].
    symmetry. apply (Z.div_unique u (2 ^ (w - 1)) 1 (u - 2 ^ (w - 1))); lia.
  - rewrite Z.div_small by lia. reflexivity.
Qed.

Lemma int_from_bytes_signed_negative (bs : bytes) :
  bs <> [] ->
  int_from_bytes_signed bs < 0 <->
  2 ^ (8 * Z.of_nat (length bs) - 1) <= int_from_bytes_unsigned bs.
Proof.
  intros Hne.
  pose proof (int_from_bytes_signed_eq bs Hne) as E. cbn zeta in E. rewrite E.
  pose proof (int_from_bytes_unsigned_range bs) as R.
  destruct (Z.leb_spec (2 ^ (8 * Z.of_nat (length bs) - 1))
                       (int_from_bytes_unsigned bs)); lia.
Qed.

Lemma int_from_bytes_signed_nil : int_from_bytes_signed [] = 0.
Proof. reflexivity. Qed.

(** ** The decoder *)

Section DecoderFacts.

Variable gunzip_members : bytes -> outcome bytes.
Local Abbreviation parse := (_parse_response gunzip_members).

(** A frame of at least three bytes has a header; the fields are the
    nibbles of its first three bytes. *)
Lemma parse_header_cons {S} (b0 b1 b2 : byte) (rest : bytes) (s : S) :
  parse_header (b0 :: b1 :: b2 :: rest) s =
  (Ok (Header (byte_val b1 / 16) (byte_val b1 mod 16) (byte_val b2 mod 16)
              (byte_val b0 mod 16)
              (drop (Z.to_nat (byte_val b0 mod 16 * 4)) (b0 :: b1 :: b2 :: rest))),
   s).
Proof.
  unfold parse_header, bind, lift, getitem, ret. cbn [lookup list_lookup].
  rewrite high_nibble, !low_nibble. reflexivity.
Qed.

Lemma parse_header_short {S} (response : bytes) (s : S) :
  (length response < 3)%nat -> parse_header response s = (Raise IndexError, s).
Proof.
  intros Hlen.
  destruct response as [|b0 [|b1 [|b2 rest]]]; cbn [length] in Hlen; try lia;
    reflexivity.
Qed.

Lemma parse_header_inv {S} (response : bytes) (h : header) (s s' : S) :
  parse_header response s = (Ok h, s') ->
  s' = s /\ exists b0 b1 b2 rest,
    response = b0 :: b1 :: b2 :: rest /\
    h = Header (byte_val b1 / 16) (byte_val b1 mod 16) (byte_val b2 mod 16)
               (byte_val b0 mod 16)
               (drop (Z.to_nat (byte_val b0 mod 16 * 4)) response).
Proof.
  destruct response as [|b0 [|b1 [|b2 rest]]]; try discriminate.
  rewrite parse_header_cons. intros [= <- <-]. split; [reflexivity|].
  exists b0, b1, b2, rest. split; reflexivity.
Qed.

(** The header does not depend on the state it is read in. *)
Lemma parse_header_state {S T} (response : bytes) (h : header) (s s' : S) (t : T) :
  parse_header response s = (Ok h, s') -> parse_header response t = (Ok h, t).
Proof.
  intros H. apply parse_header_inv in H as [_ (b0 & b1 & b2 & rest & -> & ->)].
  apply parse_header_cons.
Qed.

Lemma parse_no_header (response : bytes) (buf : BytesIO) :
  (length response < 3)%nat -> parse response buf = (Raise IndexError, buf).
Proof.
  intros Hlen. unfold _parse_response, bind.
  rewrite parse_header_short by assumption. reflexivity.
Qed.

(** An audio frame without sequence number is an acknowledgment. *)
Lemma parse_audio_ack (response : bytes) (h : header) (buf : BytesIO) :
  parse_header response buf = (Ok h, buf) ->
  message_type h = 0xb -> message_type_specific_flags h = 0 ->
  parse response buf = (Ok false, buf).
Proof.
  intros H Ht Hf. with_header H. rewrite Ht, Hf. reflexivity.
Qed.

(** An audio frame with a sequence number appends what follows the 8-byte
    prefix, whatever the size field says. *)
Lemma parse_audio_data (response : bytes) (h : header) (buf : BytesIO) :
  parse_header response buf = (Ok h, buf) ->
  message_type h = 0xb -> message_type_specific_flags h <> 0 ->
  parse response buf =
  (Ok (int_from_bytes_signed (take 4 (payload h)) <? 0), buf ++ drop 8 (payload h)).
Proof.
  intros H Ht Hf. with_header H. rewrite Ht. cbn [Z.eqb Pos.eqb].
  apply Z.eqb_neq in Hf. rewrite Hf. reflexivity.
Qed.

(** The bytes of the message of an error frame, decompressed when the
    header says gzip, then decoded. *)
Lemma parse_error (response : bytes) (h : header) (buf : BytesIO) :
  parse_header response buf = (Ok h, buf) ->
  message_type h = 0xf ->
  parse response buf =
  match (if message_compression h =? 1
         then gzip_decompress gunzip_members (drop 8 (payload h))
         else Ok (drop 8 (payload h))) with
  | Raise e => (Raise e, buf)
  | Ok m =>
    match str_utf8 m with
    | Raise e => (Raise e, buf)
    | Ok msg =>
      (Raise (InvokeBadRequestError
                ("Error code "
                   +:+ str_of_int (int_from_bytes_unsigned (take 4 (payload h)))
                   +:+ ": " +:+ msg)), buf)
    end
  end.
Proof.
  intros H Ht. with_header H. rewrite Ht. cbn [Z.eqb Pos.eqb].
  unfold lift, raise.
  destruct (if message_compression h =? 1 then _ else _) as [m|e]; [|reflexivity].
  destruct (str_utf8 m); reflexivity.
Qed.

Lemma parse_frontend (response : bytes) (h : header) (buf : BytesIO) :
  parse_header response buf = (Ok h, buf) ->
  message_type h = 0xc ->
  parse response buf =
  match (if message_compression h =? 1
         then gzip_decompress gunzip_members (drop 4 (payload h))
         else Ok (drop 4 (payload h))) with
  | Raise e => (Raise e, buf)
  | Ok _ => (Ok true, buf)
  end.
Proof.
  intros H Ht. with_header H. rewrite Ht. cbn [Z.eqb Pos.eqb].
  unfold lift, ret.
  destruct (if message_compression h =? 1 then _ else _); reflexivity.
Qed.

Lemma parse_other (response : bytes) (h : header) (buf : BytesIO) :
  parse_header response buf = (Ok h, buf) ->
  message_type h <> 0xb -> message_type h <> 0xf -> message_type h <> 0xc ->
  parse response buf = (Ok false, buf).
Proof.
  intros H Hb Hf Hc. with_header H.
  apply Z.eqb_neq in Hb, Hf, Hc. rewrite Hb, Hf, Hc. reflexivity.
Qed.

(** Whatever it is given, the decoder either leaves the buffer as it was or
    has decoded an audio frame with a sequence number. *)
Lemma parse_buffer (response : bytes) (buf : BytesIO) :
  snd (parse response buf) = buf \/
  exists h, parse_header response buf = (Ok h, buf) /\
            message_type h = 0xb /\ message_type_specific_flags h <> 0 /\
            snd (parse response buf) = buf ++ drop 8 (payload h).
Proof.
  destruct (parse_header response buf) as [[h|e] s'] eqn:H.
  - destruct (parse_header_inv _ _ _ _ H) as [-> _].
    destruct (Z.eq_dec (message_type h) 0xb) as [Hb|Hb].
    + destruct (Z.eq_dec (message_type_specific_flags h) 0) as [Hz|Hz].
      * left. rewrite (parse_audio_ack _ _ _ H Hb Hz). reflexivity.
      * right. exists h. rewrite (parse_audio_data _ _ _ H Hb Hz). auto.
    + left. destruct (Z.eq_dec (message_type h) 0xf) as [Hf|Hf].
      * rewrite (parse_error _ _ _ H Hf).
        destruct (if message_compression h =? 1 then _ else _) as [m|]; [|reflexivity].
        destruct (str_utf8 m); reflexivity.
      * destruct (Z.eq_dec (message_type h) 0xc) as [Hc|Hc].
        -- rewrite (parse_frontend _ _ _ H Hc).
           destruct (if message_compression h =? 1 then _ else _); reflexivity.
        -- rewrite (parse_other _ _ _ H Hb Hf Hc). reflexivity.
  - left. unfold _parse_response, bind. rewrite H.
    destruct response as [|b0 [|b1 [|b2 rest]]]; injection H as _ <-; reflexivity.
Qed.

End DecoderFacts.

(** ** The receive loop and the session *)

Section SessionFacts.

Variable gunzip_members : bytes -> outcome bytes.
Variable gzip_compress : bytes -> bytes.
Variable json_dumps : json -> string.
Local Abbreviation parse := (_parse_response gunzip_members).
Local Abbreviation loop := (recv_loop gunzip_members).
Local Abbreviation session := (_get_audio_data gunzip_members gzip_compress json_dumps).
Local Abbreviation encode := (full_client_request gzip_compress json_dumps).

Lemma received_nil (w : world) : received [] w = w.
Proof. destruct w. unfold received. cbn. rewrite app_nil_r. reflexivity. Qed.

Lemma received_app (fs gs : list bytes) (w : world) :
  received (fs ++ gs) w = received gs (received fs w).
Proof. unfold received. cbn. rewrite map_app, app_assoc. reflexivity. Qed.

(** One turn of the loop. *)
Lemma recv_loop_cons (response : bytes) (ws : list bytes) (buf : BytesIO) (w : world) :
  loop (response :: ws) buf w =
  match parse response buf with
  | (Ok true, buf') => (Ok buf', received [response] w)
  | (Ok false, buf') => loop ws buf' (received [response] w)
  | (Raise e, _) => (Raise e, received [response] w)
  end.
Proof.
  cbn [recv_loop]. unfold bind at 1. unfold log, modify. cbn beta iota.
  unfold bind at 1. unfold on_buffer.
  change (World (servers w) (uuid_calls w) (trace w ++ [EvRecv response]))
    with (received [response] w).
  destruct (parse response buf) as [[[|]|e] buf']; reflexivity.
Qed.

(** Frames answered with [False] are passed over. *)
Lemma recv_loop_continues (pre ws : list bytes) (buf buf1 : BytesIO) (w : world) :
  continues gunzip_members pre buf = Some buf1 ->
  loop (pre ++ ws) buf w = loop ws buf1 (received pre w).
Proof.
  revert buf w. induction pre as [|response pre IH]; intros buf w H.
  - injection H as <-. rewrite received_nil. reflexivity.
  - cbn [continues] in H. cbn [app]. rewrite recv_loop_cons.
    destruct (parse response buf) as [[[|]|e] buf']; try discriminate.
    rewrite (IH _ _ H). rewrite <- received_app. reflexivity.
Qed.

(** The loop touches the world only by receiving a prefix of the frames. *)
Lemma recv_loop_world (ws : list bytes) (buf : BytesIO) (w : world) :
  exists k, snd (loop ws buf w) = received (take k ws) w.
Proof.
  revert buf w. induction ws as [|response ws IH]; intros buf w.
  - exists 0%nat. cbn. rewrite received_nil. reflexivity.
  - rewrite recv_loop_cons.
    destruct (parse response buf) as [[[|]|e] buf'].
    + exists 1%nat. reflexivity.
    + destruct (IH buf' (received [response] w)) as [k Hk].
      exists (S k). rewrite Hk. cbn [take]. rewrite <- received_app. reflexivity.
    + exists 1%nat. reflexivity.
Qed.

(** Its result depends on the frames and the buffer only. *)
Lemma recv_loop_result (ws : list bytes) (buf : BytesIO) (w w0 : world) :
  fst (loop ws buf w) = fst (loop ws buf w0).
Proof.
  revert buf w w0. induction ws as [|response ws IH]; intros buf w w0.
  - reflexivity.
  - rewrite !recv_loop_cons.
    destruct (parse response buf) as [[[|]|e] buf']; try reflexivity.
    apply IH.
Qed.

(** The request frame: header, length on four bytes, compressed payload. *)
Lemma full_client_request_eq {S} (request_json : json) (s : S) :
  encode request_json s =
  match to_bytes4 (Z.of_nat (length (gzip_compress (str_encode (json_dumps request_json))))) with
  | Ok len4 =>
    (Ok (DEFAULT_HEADER ++ len4 ++ gzip_compress (str_encode (json_dumps request_json))), s)
  | Raise e => (Raise e, s)
  end.
Proof.
  unfold full_client_request, bind, lift, ret.
  destruct (to_bytes4 _); [rewrite <- app_assoc|]; reflexivity.
Qed.

Lemma full_client_request_state {S T} (request_json : json) (data : bytes) (s s' : S) (t : T) :
  encode request_json s = (Ok data, s') -> encode request_json t = (Ok data, t).
Proof.
  rewrite !full_client_request_eq. destruct (to_bytes4 _); [|discriminate].
  intros [= <- <-]. reflexivity.
Qed.

(** The session, case by case: the request does not fit, the access key
    is missing, no connection, or the exchange on the next connection. *)
Lemma get_audio_data_eq (request_json : json) (credentials : gmap string string) (w : world) :
  session request_json credentials w =
  match encode request_json w with
  | (Raise e, _) => (Raise e, w)
  | (Ok data, _) =>
    match credentials !! "volc_access_key_id" with
    | None => (Raise (KeyError "volc_access_key_id"), w)
    | Some key =>
      match servers w with
      | [] => (Raise (OSError "connection refused"), w)
      | sc :: others =>
        match refuse sc with
        | Some e => (Raise e, World others (uuid_calls w) (trace w))
        | None =>
          let (r, w') :=
            loop (incoming sc) []
                 (World others (uuid_calls w)
                        (trace w ++ [EvConnect (api_url credentials)
                                               [("Authorization", "Bearer; " +:+ key)];
                                     EvSend data])) in
          (r, ws_close w')
        end
      end
    end
  end.
Proof.
  unfold _get_audio_data. unfold bind at 1.
  destruct (encode request_json w) as [[data|e] w1] eqn:E.
  all: assert (w1 = w) as ->
      by (rewrite full_client_request_eq in E; destruct (to_bytes4 _); congruence).
  all: cbn beta iota.
  2: reflexivity.
  unfold bind at 1. unfold dict_getitem.
  destruct (credentials !! "volc_access_key_id") as [key|]; [|reflexivity].
  unfold ret at 1. cbn beta iota. unfold bind at 1. unfold ws_connect.
  destruct (servers w) as [|sc others]; [reflexivity|].
  destruct (refuse sc) as [e|]; [reflexivity|].
  unfold bind at 1. unfold finally. unfold bind at 1. unfold ws_send, log, modify.
  cbn [servers uuid_calls trace]. rewrite <- app_assoc. cbn [app].
  fold (api_url credentials).
  destruct (loop _ _ _) as [[audio|e] w']; reflexivity.
Qed.

Lemma sends_app (evs evs' : list event) : sends (evs ++ evs') = sends evs ++ sends evs'.
Proof. apply omap_app. Qed.

Lemma sends_recv (frames : list bytes) : sends (map EvRecv frames) = [].
Proof. induction frames as [|f frames IH]; [reflexivity | exact IH]. Qed.

(** What a session leaves behind: its events, well bracketed; at most one
    frame sent, the request; and when it returns audio, the audio is what
    the loop makes of the frames of the connection it used up. *)
Lemma get_audio_data_run (request_json : json) (credentials : gmap string string)
      (w w2 : world) (r : outcome bytes) :
  session request_json credentials w = (r, w2) ->
  uuid_calls w2 = uuid_calls w /\
  exists evs,
    trace w2 = trace w ++ evs /\ session_events evs /\
    (sends evs = [] \/
     exists data, sends evs = [data] /\ encode request_json tt = (Ok data, tt)) /\
    (match r with
     | Raise _ => True
     | Ok audio =>
       (exists data, sends evs = [data]) /\
       exists sc, servers w = sc :: servers w2 /\ refuse sc = None /\
                  forall w0, fst (loop (incoming sc) [] w0) = Ok audio
     end).
Proof.
  rewrite get_audio_data_eq.
  destruct (encode request_json w) as [[data|e] w1] eqn:E.
  2:{ intros [= <- <-]. split; [reflexivity|]. exists [].
      rewrite app_nil_r. repeat split; unfold session_events; auto. }
  apply (full_client_request_state _ _ _ _ tt) in E.
  destruct (credentials !! "volc_access_key_id") as [key|].
  2:{ intros [= <- <-]. split; [reflexivity|]. exists [].
      rewrite app_nil_r. repeat split; unfold session_events; auto. }
  destruct (servers w) as [|sc others] eqn:Hs.
  { intros [= <- <-]. split; [reflexivity|]. exists [].
    rewrite app_nil_r. repeat split; unfold session_events; auto. }
  destruct (refuse sc) as [e|] eqn:Hr.
  { intros [= <- <-]. split; [reflexivity|]. exists [].
    rewrite app_nil_r. repeat split; unfold session_events; auto. }
  set (wc := World others _ _).
  destruct (recv_loop_world (incoming sc) [] wc) as [k Hk].
  pose proof (recv_loop_result (incoming sc) [] wc) as Hres.
  destruct (loop (incoming sc) [] wc) as [r' w'] eqn:L. cbn [fst snd] in Hk, Hres.
  intros [= <- <-]. subst w'. split; [reflexivity|].
  exists (EvConnect (api_url credentials) [("Authorization", "Bearer; " +:+ key)]
            :: EvSend data :: map EvRecv (take k (incoming sc)) ++ [EvClose]).
  assert (Hsends : sends (EvConnect (api_url credentials)
                                     [("Authorization", "Bearer; " +:+ key)]
            :: EvSend data :: map EvRecv (take k (incoming sc)) ++ [EvClose]) = [data]).
  { change (sends (?a :: ?b :: ?l)) with (data :: sends l).
    rewrite sends_app, sends_recv. reflexivity. }
  split; [|split; [|split]].
  - cbn. rewrite <- !app_assoc. reflexivity.
  - right. eauto 10.
  - right. eauto.
  - destruct r' as [audio|e].
    + split; [eauto|]. exists sc. repeat split; auto.
    + exact I.
Qed.

End SessionFacts.

(** ** The generator *)

Section GeneratorFacts.

Variable gunzip_members : bytes -> outcome bytes.
Variable gzip_compress : bytes -> bytes.
Variable json_dumps : json -> string.
Variable uuid4_str : nat -> string.
Variable _get_model_word_limit : string -> gmap string string -> Z.
Variable _get_model_audio_type : string -> gmap string string -> string.
Variable _split_text_into_sentences : string -> Z -> list string.

Local Abbreviation loop := (recv_loop gunzip_members).
Local Abbreviation session := (_get_audio_data gunzip_members gzip_compress json_dumps).
Local Abbreviation next :=
  (gen_next gunzip_members gzip_compress json_dumps uuid4_str
            _get_model_word_limit _get_model_audio_type _split_text_into_sentences).
Local Abbreviation pulls :=
  (pull gunzip_members gzip_compress json_dumps uuid4_str
        _get_model_word_limit _get_model_audio_type _split_text_into_sentences).
Local Abbreviation sent := (sent_for gzip_compress json_dumps).

(** One turn of the [for] loop is one session, with a fresh request id. *)
Lemma for_sentences_cons (base : json) (credentials : gmap string string)
      (sentence : string) (rest : list string) (w : world) :
  for_sentences gunzip_members gzip_compress json_dumps uuid4_str
                base credentials (sentence :: rest) w =
  match session (sentence_request base (uuid4_str (uuid_calls w)) sentence)
                credentials (after_uuid w) with
  | (Ok chunk, w') => (Ok (Some chunk, GenSuspended base credentials rest), w')
  | (Raise e, w') => (Raise e, w')
  end.
Proof.
  unfold for_sentences. unfold bind at 1. unfold uuid4. cbn beta iota.
  unfold bind at 1. fold (after_uuid w).
  destruct (session _ _ _) as [[chunk|e] w']; reflexivity.
Qed.

(** A finished generator stays finished and touches nothing. *)
Lemma next_finished (w : world) : next GenFinished w = (Ok (None, GenFinished), w).
Proof. reflexivity. Qed.

(** Consuming a generator suspended in its loop: chunk after chunk, one
    connection each, in the order of the sentences. *)
Lemma pull_suspended (base : json) (credentials : gmap string string) (n : nat) :
  forall (ss : list string) (w : world) out e g' w',
    pulls n (GenSuspended base credentials ss) w = (out, e, g', w') ->
    (length out <= length ss)%nat /\
    (forall i audio, out !! i = Some audio ->
       exists sc, servers w !! i = Some sc /\ refuse sc = None /\
                  forall w0, fst (loop (incoming sc) [] w0) = Ok audio) /\
    exists runs,
      trace w' = trace w ++ concat runs /\ Forall session_events runs /\
      Forall2 (sent base) (sends (concat runs))
              (take (length (sends (concat runs))) ss) /\
      match e with
      | Stopped =>
        length out = length ss /\ g' = GenFinished /\ length runs = length out
      | Raised ex =>
        (length out < length ss)%nat /\ g' = GenFinished /\
        length runs = S (length out) /\
        exists reqid sentence wb,
          ss !! length out = Some sentence /\
          session (sentence_request base reqid sentence) credentials wb = (Raise ex, w')
      | Suspended =>
        length out = n /\ g' = GenSuspended base credentials (drop n ss) /\
        length runs = length out
      end.
Proof.
  induction n as [|n IH]; intros ss w out e g' w' H.
  - injection H as <- <- <- <-. cbn [length]. split; [lia|]. split.
    + intros i audio Hi. discriminate.
    + exists []. cbn. rewrite app_nil_r. repeat split; constructor.
  - cbn [pull gen_next] in H. destruct ss as [|s ss].
    + cbn in H. injection H as <- <- <- <-. cbn [length]. split; [lia|]. split.
      * intros i audio Hi. discriminate.
      * exists []. cbn. rewrite app_nil_r. repeat split; constructor.
    + rewrite for_sentences_cons in H.
      destruct (session _ _ _) as [[chunk|ex] w2] eqn:E.
      * destruct (pulls n (GenSuspended base credentials ss) w2)
          as [[[out' e'] g''] w''] eqn:P.
        injection H as <- <- <- <-.
        apply get_audio_data_run in E
          as (_ & evs & Ht & Hev & Hsent & (data & Hd) & sc & Hs & Hr & Ha).
        destruct Hsent as [Hn | (data' & Hd' & Henc)]; [congruence|].
        assert (data' = data) as -> by congruence.
        destruct (IH _ _ _ _ _ _ P) as (A & B & runs & Ct & Ce & Cs & D).
        cbn [length]. split; [lia|]. split.
        -- intros [|i] audio Hi.
           ++ injection Hi as <-. exists sc. cbn in Hs. rewrite Hs. auto.
           ++ cbn in Hs. rewrite Hs. cbn. apply B. exact Hi.
        -- exists (evs :: runs). cbn [concat].
           rewrite Ct, Ht. cbn [after_uuid trace]. rewrite <- app_assoc.
           split; [reflexivity|]. split; [constructor; assumption|].
           rewrite sends_app, Hd. cbn [app length take]. split.
           ++ constructor; [|exact Cs].
              exists (uuid4_str (uuid_calls w)). exact Henc.
           ++ destruct e' as [| |ex]; cbn [drop].
              ** destruct D as (D1 & D2 & D3). repeat split; [lia | exact D2 | lia].
              ** destruct D as (D1 & D2 & D3). repeat split; [lia | exact D2 | lia].
              ** destruct D as (D1 & D2 & D3 & reqid & sentence & wb & Hl & Hx).
                 split; [lia|]. split; [exact D2|]. split; [lia|].
                 exists reqid, sentence, wb. split; [exact Hl | exact Hx].
      * injection H as <- <- <- <-. pose proof E as E0.
        apply get_audio_data_run in E as (_ & evs & Ht & Hev & Hsent & _).
        cbn [length]. split; [lia|]. split.
        -- intros i audio Hi. discriminate.
        -- exists [evs]. cbn [concat]. rewrite app_nil_r, Ht.
           split; [reflexivity|]. split; [constructor; [assumption|constructor]|].
           split.
           2:{ cbn [length]. split; [lia|]. split; [reflexivity|]. split; [reflexivity|].
               exists (uuid4_str (uuid_calls w)), s, (after_uuid w).
               split; [reflexivity | exact E0]. }
           destruct Hsent as [-> | (data & -> & Henc)]; [constructor|].
           cbn [length take]. constructor; [|constructor].
           exists (uuid4_str (uuid_calls w)). exact Henc.
Qed.

(** The first [next] builds the base request, drawing a user id when none
    is given, and enters the loop over the sentences. *)
Lemma pull_created (model : string) (credentials : gmap string string)
      (content_text voice : string) (user : option string) (n : nat) (w : world) :
  exists uid w1,
    servers w1 = servers w /\ trace w1 = trace w /\
    pulls (S n) (GenCreated model credentials content_text voice user) w =
    pulls (S n)
          (GenSuspended
             (base_request credentials uid voice
                           (_get_model_audio_type model credentials))
             credentials
             (_split_text_into_sentences content_text
                (_get_model_word_limit model credentials)))
          w1.
Proof.
  assert (U : exists uid w1, user_or_uuid uuid4_str user w = (Ok uid, w1) /\
                             servers w1 = servers w /\ trace w1 = trace w).
  { unfold user_or_uuid. destruct user as [u|]; [destruct (String.eqb u "")|];
      eexists _, _; repeat split. }
  destruct U as (uid & w1 & Hu & Hs & Ht).
  exists uid, w1. split; [exact Hs|]. split; [exact Ht|].
  cbn [pull gen_next]. unfold bind at 1. rewrite Hu. reflexivity.
Qed.

(** What the first [next] leaves of the world before the first sentence. *)
Lemma user_or_uuid_eq (user : option string) (w : world) :
  user_or_uuid uuid4_str user w
  = (Ok (run_uid uuid4_str user w),
     World (servers w) (uuid_calls w + uid_draws user) (trace w)).
Proof.
  destruct w as [sv uc tr]. unfold user_or_uuid, run_uid, uid_draws, uuid4, ret.
  cbn [servers uuid_calls trace].
  destruct user as [u|]; [destruct (String.eqb u "")|];
    rewrite ?Nat.add_0_r, ?Nat.add_1_r; reflexivity.
Qed.

Lemma pull_created_eq (model : string) (credentials : gmap string string)
      (content_text voice : string) (user : option string) (n : nat) (w : world) :
  pulls (S n) (_invoke_streaming model credentials content_text voice user) w
  = pulls (S n)
          (GenSuspended
             (base_request credentials (run_uid uuid4_str user w) voice
                           (_get_model_audio_type model credentials))
             credentials
             (_split_text_into_sentences content_text
                (_get_model_word_limit model credentials)))
          (World (servers w) (uuid_calls w + uid_draws user) (trace w)).
Proof.
  unfold _invoke_streaming. cbn [pull gen_next]. unfold bind at 1.
  rewrite user_or_uuid_eq. reflexivity.
Qed.

(** The generator, consumed from its loop, is the sessions in order. *)
Lemma pull_suspended_eq (base : json) (credentials : gmap string string) (n : nat) :
  forall (ss : list string) (w : world) out e g' w',
    pulls n (GenSuspended base credentials ss) w = (out, e, g', w') ->
    sessions_in_order gunzip_members gzip_compress json_dumps uuid4_str
                      n base credentials ss w = (out, e, w').
Proof.
  induction n as [|n IH]; intros ss w out e g' w' H.
  - injection H as <- <- <- <-. reflexivity.
  - cbn [pull gen_next] in H. cbn [sessions_in_order]. destruct ss as [|s ss].
    + cbn in H. injection H as <- <- <- <-. reflexivity.
    + rewrite for_sentences_cons in H.
      destruct (session _ _ _) as [[chunk|ex] w2].
      * destruct (pulls n (GenSuspended base credentials ss) w2)
          as [[[out' e'] g''] w''] eqn:P.
        injection H as <- <- <- <-. rewrite (IH _ _ _ _ _ _ P). reflexivity.
      * injection H as <- <- <- <-. reflexivity.
Qed.

Lemma world_after_cons (base : json) (credentials : gmap string string)
      (s : string) (ss : list string) (w w1 : world) (chunk : bytes) (k : nat) :
  session (sentence_request base (uuid4_str (uuid_calls w)) s) credentials (after_uuid w)
  = (Ok chunk, w1) ->
  world_after gunzip_members gzip_compress json_dumps uuid4_str
              (S k) base credentials (s :: ss) w
  = world_after gunzip_members gzip_compress json_dumps uuid4_str
                k base credentials ss w1.
Proof.
  intros E. unfold world_after. cbn [sessions_in_order]. rewrite E.
  destruct (sessions_in_order _ _ _ _ k base credentials ss w1) as [[out e] w2].
  reflexivity.
Qed.

(** In a run of sessions in order, each buffer is the result of the session
    of its sentence, run in the world the earlier sessions left, and a
    failure is the exception of the session of the next sentence. *)
Lemma sessions_in_order_chunks (base : json) (credentials : gmap string string) (n : nat) :
  forall (ss : list string) (w : world) out e w',
    sessions_in_order gunzip_members gzip_compress json_dumps uuid4_str
                      n base credentials ss w = (out, e, w') ->
    let after k :=
        world_after gunzip_members gzip_compress json_dumps uuid4_str
                    k base credentials ss w in
    (forall i audio,
        out !! i = Some audio ->
        exists sentence,
          ss !! i = Some sentence /\
          session (sentence_request base (uuid4_str (uuid_calls (after i))) sentence)
                  credentials (after_uuid (after i))
          = (Ok audio, after (S i))) /\
    (forall ex,
        e = Raised ex ->
        exists sentence,
          ss !! length out = Some sentence /\
          session (sentence_request base
                     (uuid4_str (uuid_calls (after (length out)))) sentence)
                  credentials (after_uuid (after (length out)))
          = (Raise ex, w')).
Proof.
  induction n as [|n IH]; intros ss w out e w' H after.
  - injection H as <- <- <-. split; [intros i audio Hi|intros ex He]; discriminate.
  - cbn [sessions_in_order] in H. destruct ss as [|s ss].
    + injection H as <- <- <-. split; [intros i audio Hi|intros ex He]; discriminate.
    + destruct (session (sentence_request base (uuid4_str (uuid_calls w)) s)
                        credentials (after_uuid w)) as [[chunk|ex0] w1] eqn:E.
      * destruct (sessions_in_order _ _ _ _ n base credentials ss w1)
          as [[out' e'] w2] eqn:P.
        injection H as <- <- <-.
        destruct (IH _ _ _ _ _ P) as [Hc Hr]. split.
        -- intros [|i] audio Hi.
           ++ injection Hi as <-. exists s. split; [reflexivity|]. unfold after.
              rewrite (world_after_cons _ _ _ _ _ _ _ 0 E). exact E.
           ++ destruct (Hc i audio Hi) as (sentence & Hl & Hx).
              exists sentence. split; [exact Hl|]. unfold after.
              rewrite !(world_after_cons _ _ _ _ _ _ _ _ E). exact Hx.
        -- intros ex He. destruct (Hr ex He) as (sentence & Hl & Hx).
           exists sentence. split; [exact Hl|]. unfold after. cbn [length].
           rewrite (world_after_cons _ _ _ _ _ _ _ _ E). exact Hx.
      * injection H as <- <- <-. split; [intros i audio Hi; discriminate|].
        intros ex [= <-]. exists s. split; [reflexivity | exact E].
Qed.

End GeneratorFacts.

(** * The protocol client *)

Section Claims.

Variable gunzip_members : bytes -> outcome bytes.
Variable gzip_compress : bytes -> bytes.
Variable json_dumps : json -> string.
Variable uuid4_str : nat -> string.
Variable get_tts_model_voices : string -> gmap string string -> list voice_entry.
Variable _get_model_default_voice : string -> gmap string string -> string.
Variable _get_model_word_limit : string -> gmap string string -> Z.
Variable _get_model_audio_type : string -> gmap string string -> string.
Variable _split_text_into_sentences : string -> Z -> list string.

Local Abbreviation parse := (_parse_response gunzip_members).
Local Abbreviation gunzip := (gzip_decompress gunzip_members).
Local Abbreviation loop := (recv_loop gunzip_members).
Local Abbreviation cont := (continues gunzip_members).
Local Abbreviation encode := (full_client_request gzip_compress json_dumps).
Local Abbreviation session := (_get_audio_data gunzip_members gzip_compress json_dumps).
Local Abbreviation next :=
  (gen_next gunzip_members gzip_compress json_dumps uuid4_str
            _get_model_word_limit _get_model_audio_type _split_text_into_sentences).
Local Abbreviation pulls :=
  (pull gunzip_members gzip_compress json_dumps uuid4_str
        _get_model_word_limit _get_model_audio_type _split_text_into_sentences).
Local Abbreviation invoke :=
  (_invoke get_tts_model_voices _get_model_default_voice).

(** The loop at a frame that comes after frames answered with [False]. *)
Lemma recv_loop_at (pre : list bytes) (response : bytes) (rest : list bytes)
      (buf0 buf : BytesIO) (w : world) :
  cont pre buf0 = Some buf ->
  loop (pre ++ response :: rest) buf0 w =
  match parse response buf with
  | (Ok true, buf') => (Ok buf', received (pre ++ [response]) w)
  | (Ok false, buf') => loop rest buf' (received (pre ++ [response]) w)
  | (Raise e, _) => (Raise e, received (pre ++ [response]) w)
  end.
Proof.
  intros H. rewrite (recv_loop_continues _ _ _ _ _ _ H), recv_loop_cons.
  rewrite received_app. reflexivity.
Qed.

(** C4. The decoder reads the header size from the low nibble of byte 0,
    the message type from the high nibble of byte 1, the flags from the low
    nibble of byte 1 and the compression from the low nibble of byte 2; the
    payload starts at offset [header_size * 4]. When byte 0 is 0x11 the
    header size is 1 and the payload starts at offset 4. *)
Theorem header_fields_from_nibbles (b0 b1 b2 : byte) (rest : bytes) (buf : BytesIO) :
  (exists h,
      parse_header (b0 :: b1 :: b2 :: rest) buf = (Ok h, buf) /\
      header_size h = byte_val b0 mod 16 /\
      message_type h = byte_val b1 / 16 /\
      message_type_specific_flags h = byte_val b1 mod 16 /\
      message_compression h = byte_val b2 mod 16 /\
      payload h = drop (Z.to_nat (header_size h * 4)) (b0 :: b1 :: b2 :: rest)) /\
  (exists h,
      parse_header (x11 :: b1 :: b2 :: rest) buf = (Ok h, buf) /\
      header_size h = 1 /\
      header_size h * 4 = 4 /\
      payload h = drop 4 (x11 :: b1 :: b2 :: rest)).
Proof.
  split; eexists; (split; [apply parse_header_cons|]); cbn [header_size message_type
    message_type_specific_flags message_compression payload]; repeat split.
Qed.

(** C1. An audio frame (message type 0xb) whose flags are 0 is an
    acknowledgment: the decoder answers [False] and appends nothing. With
    other flags the bytes after the 8-byte prefix are appended to the
    buffer, and the session is done at this frame exactly when the signed
    sequence number is negative, however many frames answered with [False]
    came before it. *)
Theorem audio_frame_appends_and_ends_on_negative_sequence
        (response : bytes) (h : header) (buf : BytesIO) :
  parse_header response buf = (Ok h, buf) ->
  message_type h = 0xb ->
  let sequence_number := int_from_bytes_signed (take 4 (payload h)) in
  let audio_data := drop 8 (payload h) in
  (message_type_specific_flags h = 0 -> parse response buf = (Ok false, buf)) /\
  (message_type_specific_flags h <> 0 ->
   parse response buf = (Ok (sequence_number <? 0), buf ++ audio_data) /\
   forall pre rest buf0 w,
     cont pre buf0 = Some buf ->
     (sequence_number < 0 ->
      loop (pre ++ response :: rest) buf0 w =
      (Ok (buf ++ audio_data), received (pre ++ [response]) w)) /\
     (0 <= sequence_number ->
      loop (pre ++ response :: rest) buf0 w =
      loop rest (buf ++ audio_data) (received (pre ++ [response]) w))).
Proof.
  intros H Ht sequence_number audio_data. split.
  - intros Hf. exact (parse_audio_ack _ _ _ _ H Ht Hf).
  - intros Hf. pose proof (parse_audio_data gunzip_members _ _ _ H Ht Hf) as P.
    split; [exact P|]. intros pre rest buf0 w Hc.
    rewrite (recv_loop_at _ _ _ _ _ _ Hc), P. fold sequence_number audio_data.
    split; intros Hs.
    + apply Z.ltb_lt in Hs. rewrite Hs. reflexivity.
    + apply Z.ltb_ge in Hs. rewrite Hs. reflexivity.
Qed.

(** C9. A frame whose message type is not 0xb, an audio frame whose flags
    are 0, and a frame too short to have a header leave the audio buffer as
    it was; the decoder changes the buffer only for an audio frame with a
    sequence number, by appending to it. *)
Theorem buffer_changed_only_by_sequenced_audio (response : bytes) (buf : BytesIO) :
  (forall h,
      parse_header response buf = (Ok h, buf) ->
      message_type h <> 0xb \/ message_type_specific_flags h = 0 ->
      snd (parse response buf) = buf) /\
  (forall e,
      parse_header response buf = (Raise e, buf) -> snd (parse response buf) = buf) /\
  (snd (parse response buf) <> buf ->
   exists h,
     parse_header response buf = (Ok h, buf) /\
     message_type h = 0xb /\ message_type_specific_flags h <> 0 /\
     snd (parse response buf) = buf ++ drop 8 (payload h)).
Proof.
  destruct (parse_buffer gunzip_members response buf)
    as [Same | (h' & H' & Ht & Hf & Happ)].
  - repeat split; try (intros; exact Same). intros Hne. contradiction.
  - split; [|split].
    + intros h H [Hn | Hz]; assert (h' = h) as -> by congruence; contradiction.
    + intros e H. congruence.
    + intros _. exists h'. auto.
Qed.




(** C5, as the code has it. A frontend frame (message type 0xc) appends no
    audio and its content has no part in the result, but the decoder
    answers [True]: the frame ends the receive loop, and the session
    returns the audio gathered before it. The remainder after the 4-byte
    size is decompressed when the compression nibble is 1; when that
    fails, the exception of the decompression is raised. *)
Theorem frontend_frame_ends_session
        (response : bytes) (h : header) (buf : BytesIO) :
  parse_header response buf = (Ok h, buf) ->
  message_type h = 0xc ->
  let msg_payload :=
      if message_compression h =? 1 then gunzip (drop 4 (payload h))
      else Ok (drop 4 (payload h)) in
  (forall m, msg_payload = Ok m ->
     parse response buf = (Ok true, buf) /\
     forall pre rest buf0 w,
       cont pre buf0 = Some buf ->
       loop (pre ++ response :: rest) buf0 w =
       (Ok buf, received (pre ++ [response]) w)) /\
  (forall e, msg_payload = Raise e -> parse response buf = (Raise e, buf)).
Proof.
  intros H Ht msg_payload.
  pose proof (parse_frontend gunzip_members _ _ _ H Ht) as P.
  fold msg_payload in P. split.
  - intros m Hm. rewrite Hm in P. split; [exact P|].
    intros pre rest buf0 w Hc. rewrite (recv_loop_at _ _ _ _ _ _ Hc), P. reflexivity.
  - intros e He. rewrite He in P. exact P.
Qed.

(** C7, as the code has it. The decoder compares no length with a declared
    size. An audio frame with a sequence number is decoded whatever its
    size field says and however short its payload is: the bytes that are
    there after the first 8 of the payload are appended, none if the
    payload has 8 bytes or fewer, and the frame is the last one exactly
    when the sequence number read from the first bytes of the payload is
    negative. A frame of fewer than three bytes is refused with
    [IndexError]; every longer frame has a header. *)
Theorem length_fields_not_checked (response : bytes) (buf : BytesIO) :
  ((length response < 3)%nat -> parse response buf = (Raise IndexError, buf)) /\
  ((3 <= length response)%nat ->
   exists h,
     parse_header response buf = (Ok h, buf) /\
     length (payload h) = (length response - Z.to_nat (header_size h * 4))%nat /\
     (message_type h = 0xb -> message_type_specific_flags h <> 0 ->
      parse response buf =
      (Ok (int_from_bytes_signed (take 4 (payload h)) <? 0),
       buf ++ drop 8 (payload h)) /\
      length (drop 8 (payload h)) = (length (payload h) - 8)%nat)).
Proof.
  split.
  - apply parse_no_header.
  - intros Hlen.
    destruct response as [|b0 [|b1 [|b2 rest]]]; cbn [length] in Hlen; try lia.
    eexists. split; [apply parse_header_cons|].
    cbn [payload header_size message_type message_type_specific_flags].
    split; [apply length_drop|].
    intros Ht Hf. split; [|apply length_drop].
    apply (parse_audio_data gunzip_members _ _ _ (parse_header_cons _ _ _ _ _)
                            Ht Hf).
Qed.

(** C8, as the code has it. When the message of an error frame is marked
    as gzip and does not decompress, the decoder raises the exception of
    the decompression, whatever the error code of the frame is; the buffer
    is untouched and the receive loop ends with that exception. *)
Theorem error_decompress_failure_propagates
        (response : bytes) (h : header) (buf : BytesIO) (e : exn) :
  parse_header response buf = (Ok h, buf) ->
  message_type h = 0xf ->
  message_compression h = 1 ->
  gunzip (drop 8 (payload h)) = Raise e ->
  parse response buf = (Raise e, buf) /\
  forall pre rest buf0 w,
    cont pre buf0 = Some buf ->
    loop (pre ++ response :: rest) buf0 w = (Raise e, received (pre ++ [response]) w).
Proof.
  intros H Ht Hc He.
  assert (P : parse response buf = (Raise e, buf)).
  { rewrite (parse_error _ _ _ _ H Ht), Hc. cbn [Z.eqb Pos.eqb]. rewrite He.
    reflexivity. }
  split; [exact P|].
  intros pre rest buf0 w Hp. rewrite (recv_loop_at _ _ _ _ _ _ Hp), P. reflexivity.
Qed.

(** C2. The request frame is the header 11 10 11 00 (version 1, header of
    one word, full client request, no flags, JSON, gzip), then the length
    of the compressed JSON on four bytes, big-endian, then the compressed
    JSON; decoded as a frame it has header size 1, message type 1, flags 0
    and compression 1. It is the one message the session sends, right
    after connecting. *)
Theorem request_frame_layout (request_json : json) :
  let payload_bytes := gzip_compress (str_encode (json_dumps request_json)) in
  Z.of_nat (length payload_bytes) < 2 ^ 32 ->
  exists len4,
    let data := [x11; x10; x11; x00] ++ len4 ++ payload_bytes in
    (forall S (s : S), encode request_json s = (Ok data, s)) /\
    length len4 = 4%nat /\
    int_from_bytes_unsigned len4 = Z.of_nat (length payload_bytes) /\
    map (fun b => (byte_val b / 16, byte_val b mod 16)) (take 4 data)
    = [(1, 1); (1, 0); (1, 1); (0, 0)] /\
    (forall buf : BytesIO,
        parse_header data buf = (Ok (Header 1 0 1 1 (len4 ++ payload_bytes)), buf)) /\
    (forall credentials key w sc others,
        credentials !! "volc_access_key_id" = Some key ->
        servers w = sc :: others ->
        refuse sc = None ->
        exists r w' evs,
          session request_json credentials w = (r, w') /\
          trace w' = trace w
                     ++ EvConnect (api_url credentials)
                                  [("Authorization", "Bearer; " +:+ key)]
                     :: EvSend data :: evs /\
          sends evs = []).
Proof.
  intros payload_bytes Hlen.
  destruct (to_bytes4_ok (Z.of_nat (length payload_bytes)) ltac:(lia)) as [len4 H4].
  destruct (to_bytes4_from_bytes _ _ H4) as [L4 V4].
  exists len4. cbn zeta.
  assert (E : forall S (s : S),
             encode request_json s = (Ok ([x11; x10; x11; x00] ++ len4 ++ payload_bytes), s)).
  { intros S s. rewrite full_client_request_eq. fold payload_bytes. rewrite H4.
    reflexivity. }
  split; [exact E|]. split; [exact L4|]. split; [exact V4|].
  split; [reflexivity|]. split; [intros buf; reflexivity|].
  intros credentials key w sc others Hk Hs Hr.
  rewrite get_audio_data_eq, E, Hk, Hs, Hr.
  set (wc := World others _ _).
  destruct (recv_loop_world gunzip_members (incoming sc) [] wc) as [k Hk'].
  destruct (loop (incoming sc) [] wc) as [r w'] eqn:L. cbn [snd] in Hk'. subst w'.
  exists r, (ws_close (received (take k (incoming sc)) wc)),
         (map EvRecv (take k (incoming sc)) ++ [EvClose]).
  split; [reflexivity|]. split.
  - cbn. rewrite <- !app_assoc. reflexivity.
  - rewrite sends_app, sends_recv. reflexivity.
Qed.

Lemma voice_listed_elem_of (voice : string) (voices : list voice_entry) :
  voice_listed voice voices = true <-> voice ∈ map value voices.
Proof.
  unfold voice_listed. rewrite existsb_exists, list_elem_of_In. split.
  - intros (v & Hin & Heq). apply String.eqb_eq in Heq. subst v. exact Hin.
  - intros Hin. exists voice. split; [exact Hin | apply String.eqb_refl].
Qed.

(** Every request of a generator asks for the voice of its base request. *)
Lemma voice_type_of_sentence_request
      (credentials : gmap string string) (uid voice audio_type reqid sentence : string) :
  voice_type_of (sentence_request (base_request credentials uid voice audio_type)
                                  reqid sentence) = Some (JStr voice).
Proof. reflexivity. Qed.

Lemma text_of_sentence_request
      (credentials : gmap string string) (uid voice audio_type reqid sentence : string) :
  text_of (sentence_request (base_request credentials uid voice audio_type)
                            reqid sentence) = Some (JStr sentence).
Proof. reflexivity. Qed.

Lemma Forall2_elem_of_l {A B} (P : A -> B -> Prop) (l : list A) (k : list B) (x : A) :
  Forall2 P l k -> x ∈ l -> exists y, y ∈ k /\ P x y.
Proof.
  induction 1 as [|a b l k Hab _ IH]; intros Hx.
  - inversion Hx.
  - apply elem_of_cons in Hx as [-> | Hx].
    + exists b. split; [left | exact Hab].
    + destruct (IH Hx) as (y & Hy & Hp). exists y. split; [right; exact Hy | exact Hp].
Qed.

(** C10. When the requested voice is empty or is not one of the values of
    the model's voices, the generator is built with the model's default
    voice, otherwise with the requested voice; and every request a
    generator sends asks for the voice the generator was built with. *)
Theorem invoke_voice_selection
        (model tenant_id : string) (credentials : gmap string string)
        (content_text voice : string) (user : option string) :
  let listed := map value (get_tts_model_voices model credentials) in
  (voice = "" \/ voice ∉ listed ->
   invoke model tenant_id credentials content_text voice user =
   _invoke_streaming model credentials content_text
                     (_get_model_default_voice model credentials) user) /\
  (voice <> "" -> voice ∈ listed ->
   invoke model tenant_id credentials content_text voice user =
   _invoke_streaming model credentials content_text voice user) /\
  (forall v n w out e g' w',
      pulls n (_invoke_streaming model credentials content_text v user) w
      = (out, e, g', w') ->
      exists evs,
        trace w' = trace w ++ evs /\
        forall data, data ∈ sends evs ->
          exists request,
            encode request tt = (Ok data, tt) /\
            voice_type_of request = Some (JStr v)).
Proof.
  intros listed. unfold _invoke. split; [|split].
  - intros [-> | Hn]; [reflexivity|].
    destruct (voice_listed voice (get_tts_model_voices model credentials)) eqn:E.
    + apply voice_listed_elem_of in E. contradiction.
    + rewrite orb_true_r. reflexivity.
  - intros Hne Hin. apply voice_listed_elem_of in Hin. rewrite Hin.
    apply String.eqb_neq in Hne. rewrite Hne. reflexivity.
  - intros v [|n] w out e g' w' H.
    + injection H as <- <- <- <-. exists []. rewrite app_nil_r.
      split; [reflexivity|]. intros data Hd. inversion Hd.
    + unfold _invoke_streaming in H.
      destruct (pull_created gunzip_members gzip_compress json_dumps uuid4_str
                  _get_model_word_limit _get_model_audio_type
                  _split_text_into_sentences model credentials content_text v user n w)
        as (uid & w1 & _ & Ht1 & Hp).
      rewrite Hp in H.
      apply pull_suspended in H as (_ & _ & runs & Ht & _ & Hs & _).
      exists (concat runs). rewrite Ht, Ht1. split; [reflexivity|].
      intros data Hd.
      destruct (Forall2_elem_of_l _ _ _ _ Hs Hd) as (s & _ & reqid & Henc).
      eexists. split; [exact Henc|]. apply voice_type_of_sentence_request.
Qed.

(** C6. Whatever the text and however many chunks the caller asks for,
    what the caller gets is what running the sessions of the sentences in
    order gives: one session per chunk, each run to its end and closed
    before the next one connects, the i-th request being the one of the
    i-th sentence. The i-th buffer yielded is the result of the session of
    the i-th sentence and the audio of the i-th connection; the generator
    stops after the last sentence; and when the session of a sentence
    fails, the caller gets the exception that session raised, no buffer for
    this sentence or a later one, and the generator is finished. *)
Theorem streaming_sequential_in_order
        (model tenant_id : string) (credentials : gmap string string)
        (content_text voice : string) (user : option string)
        (n : nat) (w : world) out e g' w' :
  pulls n (invoke model tenant_id credentials content_text voice user) w
  = (out, e, g', w') ->
  let sentences :=
      _split_text_into_sentences content_text (_get_model_word_limit model credentials) in
  let chosen :=
      if String.eqb voice ""
         || negb (voice_listed voice (get_tts_model_voices model credentials))
      then _get_model_default_voice model credentials
      else voice in
  let base :=
      base_request credentials (run_uid uuid4_str user w) chosen
                   (_get_model_audio_type model credentials) in
  let w1 := World (servers w) (uuid_calls w + uid_draws user) (trace w) in
  let after k :=
      world_after gunzip_members gzip_compress json_dumps uuid4_str
                  k base credentials sentences w1 in
  (n <> 0%nat ->
   (out, e, w')
   = sessions_in_order gunzip_members gzip_compress json_dumps uuid4_str
                       n base credentials sentences w1) /\
  (forall i audio,
      out !! i = Some audio ->
      exists sentence,
        sentences !! i = Some sentence /\
        session (sentence_request base (uuid4_str (uuid_calls (after i))) sentence)
                credentials (after_uuid (after i))
        = (Ok audio, after (S i))) /\
  (length out <= length sentences)%nat /\
  (forall i audio, out !! i = Some audio ->
     exists sc, servers w !! i = Some sc /\ refuse sc = None /\
                forall w0, fst (loop (incoming sc) [] w0) = Ok audio) /\
  exists runs,
    trace w' = trace w ++ concat runs /\
    Forall session_events runs /\
    Forall2 (request_frame_for gzip_compress json_dumps)
            (sends (concat runs))
            (take (length (sends (concat runs))) sentences) /\
    match e with
    | Stopped =>
      length out = length sentences /\ length runs = length out /\
      next g' w' = (Ok (None, g'), w')
    | Raised ex =>
      (length out < length sentences)%nat /\ length runs = S (length out) /\
      next g' w' = (Ok (None, g'), w') /\
      exists sentence,
        sentences !! length out = Some sentence /\
        session (sentence_request base
                   (uuid4_str (uuid_calls (after (length out)))) sentence)
                credentials (after_uuid (after (length out)))
        = (Raise ex, w')
    | Suspended => length out = n /\ length runs = length out
    end.
Proof.
  intros H sentences chosen base w1 after.
  unfold _invoke in H. fold chosen in H.
  destruct n as [|n].
  - injection H as <- <- <- <-. cbn [length].
    split; [intros Hn; contradiction|]. split; [intros i audio Hi; discriminate|].
    split; [lia|]. split; [intros i audio Hi; discriminate|].
    exists []. cbn. rewrite app_nil_r. repeat split; constructor.
  - rewrite pull_created_eq in H. fold sentences base w1 in H.
    pose proof H as Heq. apply pull_suspended_eq in Heq.
    pose proof Heq as Hcr. apply sessions_in_order_chunks in Hcr.
    cbn zeta in Hcr. destruct Hcr as [Hc Hr]. fold after in Hc, Hr.
    apply pull_suspended in H as (A & B & runs & Ht & Hev & Hs & D).
    split; [intros _; symmetry; exact Heq|]. split; [exact Hc|].
    split; [exact A|]. split; [exact B|].
    exists runs. split; [exact Ht|]. split; [exact Hev|]. split.
    + eapply Forall2_impl; [exact Hs|].
      intros data sentence (reqid & Henc).
      eexists. split; [exact Henc|]. apply text_of_sentence_request.
    + destruct e as [| |ex].
      * destruct D as (D1 & _ & D3). split; assumption.
      * destruct D as (D1 & -> & D3). repeat split; assumption.
      * destruct D as (D1 & -> & D3 & _). repeat split; try assumption.
        exact (Hr ex eq_refl).
Qed.

End Claims.

(** * The properties on the sample frames *)

Example header_byte_0x11 :
  parse_header frame_audio_more ([] : BytesIO)
  = (Ok (Header 0xb 1 0 1 (drop 4 frame_audio_more)), []).
Proof. reflexivity. Qed.

Example sequence_number_minus_one : int_from_bytes_signed [xff; xff; xff; xff] = -1.
Proof. reflexivity. Qed.

Example error_code_of_frame_error :
  int_from_bytes_unsigned (take 4 (drop 4 frame_error)) = 45000001.
Proof. reflexivity. Qed.

(** After an acknowledgment and a first audio frame, the frame with sequence
    number -1 ends the session with the audio of both. *)
Lemma audio_frame_witness :
  _parse_response no_gunzip frame_audio_final (str_encode "ab")
  = (Ok true, str_encode "abcd") /\
  recv_loop no_gunzip ([frame_ack; frame_audio_more] ++ [frame_audio_final]) [] sample_world
  = (Ok (str_encode "abcd"),
     received ([frame_ack; frame_audio_more] ++ [frame_audio_final]) sample_world).
Proof.
  destruct (audio_frame_appends_and_ends_on_negative_sequence
              no_gunzip frame_audio_final
              (Header 0xb 3 0 1 (drop 4 frame_audio_final)) (str_encode "ab")
              eq_refl eq_refl) as [_ H].
  destruct (H ltac:(discriminate)) as [P L].
  split; [exact P|].
  exact (proj1 (L [frame_ack; frame_audio_more] [] [] sample_world eq_refl) eq_refl).
Defined.

(** An acknowledgment and an error frame leave the buffer alone. *)
Lemma buffer_unchanged_witness :
  snd (_parse_response no_gunzip frame_ack (str_encode "ab")) = str_encode "ab" /\
  snd (_parse_response no_gunzip frame_error (str_encode "ab")) = str_encode "ab".
Proof.
  split.
  - exact (proj1 (buffer_changed_only_by_sequenced_audio
                    no_gunzip frame_ack (str_encode "ab"))
                 (Header 0xb 0 0 1 []) eq_refl (or_intror eq_refl)).
  - refine (proj1 (buffer_changed_only_by_sequenced_audio
                     no_gunzip frame_error (str_encode "ab"))
                  (Header 0xf 0 0 1 (drop 4 frame_error)) eq_refl (or_introl _)).
    discriminate.
Defined.


(** The frame of a request whose compressed JSON has two bytes. *)
Lemma request_frame_witness :
  exists len4,
    full_client_request stored_compress plain_json_dumps (JDict []) tt
    = (Ok ([x11; x10; x11; x00] ++ len4 ++ str_encode "{}"), tt) /\
    int_from_bytes_unsigned len4 = 2.
Proof.
  destruct (request_frame_layout no_gunzip stored_compress plain_json_dumps (JDict [])
                                 eq_refl) as (len4 & E & _ & V & _).
  exists len4. split; [exact (E unit tt) | exact V].
Defined.

(** C5, the claim as it is written: a frontend frame does not keep the
    session receiving. The decoder answers [True] to it, and a session that
    gets it between two audio frames returns the first audio only. *)
Lemma frontend_frame_not_continue :
  (forall gunzip_members,
      _parse_response gunzip_members frame_frontend (str_encode "ab")
      = (Ok true, str_encode "ab")) /\
  fst (recv_loop no_gunzip [frame_audio_more; frame_frontend; frame_audio_final]
                 [] sample_world)
  = Ok (str_encode "ab") /\
  ~ (forall gunzip_members response h (buf : BytesIO),
        parse_header response buf = (Ok h, buf) ->
        message_type h = 0xc ->
        _parse_response gunzip_members response buf = (Ok false, buf)).
Proof.
  split; [intros g; reflexivity|]. split; [reflexivity|].
  intros H.
  specialize (H no_gunzip frame_frontend
                (Header 0xc 0 0 1 (drop 4 frame_frontend)) [] eq_refl eq_refl).
  discriminate H.
Qed.

Lemma frontend_frame_witness :
  _parse_response no_gunzip frame_frontend (str_encode "ab") = (Ok true, str_encode "ab").
Proof.
  exact (proj1 (proj1 (frontend_frame_ends_session
                         no_gunzip frame_frontend
                         (Header 0xc 0 0 1 (drop 4 frame_frontend)) (str_encode "ab")
                         eq_refl eq_refl)
                      (str_encode "{}") eq_refl)).
Defined.

(** C7, the claim as it is written: a payload shorter than the size it
    declares is not refused. An audio frame that declares ten bytes and has
    two is decoded, and the two bytes go to the buffer; one whose payload
    stops in the middle of the prefix is decoded as a last frame without
    audio; the session returns what it got. *)
Lemma truncated_audio_accepted :
  int_from_bytes_unsigned (take 4 (drop 4 (drop 4 frame_audio_truncated))) = 10 /\
  length (drop 8 (drop 4 frame_audio_truncated)) = 2%nat /\
  (forall gunzip_members,
      _parse_response gunzip_members frame_audio_truncated []
      = (Ok false, str_encode "ab")) /\
  (forall gunzip_members,
      _parse_response gunzip_members frame_audio_no_prefix (str_encode "ab")
      = (Ok true, str_encode "ab")) /\
  fst (recv_loop no_gunzip [frame_audio_truncated; frame_audio_no_prefix] [] sample_world)
  = Ok (str_encode "ab").
Proof. repeat split. Qed.

Lemma truncated_audio_witness :
  _parse_response no_gunzip frame_audio_truncated []
  = (Ok false, str_encode "ab").
Proof.
  destruct (proj2 (length_fields_not_checked no_gunzip frame_audio_truncated [])
                  ltac:(cbn; lia)) as (h & Hh & _ & H).
  injection Hh as <-.
  exact (proj1 (H eq_refl ltac:(discriminate))).
Defined.

(** C8, the claim as it is written: the error 45000001 whose message is
    marked as gzip and is not gzip data. The decoder raises the exception of
    [gzip.decompress], in which the error code has no part, and so does the
    session. *)
Lemma bad_gzip_error_not_malformed :
  int_from_bytes_unsigned (take 4 (drop 4 frame_error_bad_gzip)) = 45000001 /\
  (forall gunzip_members,
      _parse_response gunzip_members frame_error_bad_gzip (str_encode "ab")
      = (Raise BadGzipFile, str_encode "ab")) /\
  fst (recv_loop no_gunzip [frame_audio_more; frame_error_bad_gzip] [] sample_world)
  = Raise BadGzipFile.
Proof. repeat split. Qed.

Lemma bad_gzip_error_witness :
  _parse_response no_gunzip frame_error_bad_gzip (str_encode "ab")
  = (Raise BadGzipFile, str_encode "ab").
Proof.
  exact (proj1 (error_decompress_failure_propagates
                  no_gunzip frame_error_bad_gzip
                  (Header 0xf 0 1 1 (drop 4 frame_error_bad_gzip)) (str_encode "ab")
                  BadGzipFile eq_refl eq_refl eq_refl eq_refl)).
Defined.

(** No voice asked for: the default voice. A voice of the model: that voice. *)
Lemma voice_selection_witness :
  _invoke sample_voices sample_default_voice "tts" "" sample_credentials "Hello" "" None
  = GenCreated "tts" sample_credentials "Hello" "BV001" None /\
  _invoke sample_voices sample_default_voice "tts" "" sample_credentials "Hello" "BV001" None
  = GenCreated "tts" sample_credentials "Hello" "BV001" None.
Proof.
  split.
  - exact (proj1 (invoke_voice_selection
                    no_gunzip stored_compress plain_json_dumps numbered_uuid
                    sample_voices sample_default_voice
                    sample_word_limit sample_audio_type sample_split
                    "tts" "" sample_credentials "Hello" "" None)
                 (or_introl eq_refl)).
  - refine (proj1 (proj2 (invoke_voice_selection
                    no_gunzip stored_compress plain_json_dumps numbered_uuid
                    sample_voices sample_default_voice
                    sample_word_limit sample_audio_type sample_split
                    "tts" "" sample_credentials "Hello" "BV001" None))
                  _ _).
    + discriminate.
    + left.
Defined.

(** Two sentences, the second session fails: one buffer, then the error. *)
Lemma streaming_witness :
  sample_run
  = ([str_encode "abcd"],
     Raised (InvokeBadRequestError "Error code 45000001: invalid token"),
     GenFinished, snd sample_run) /\
  (length (fst (fst (fst sample_run))) <= length (sample_split "Hello. Dify!" 20))%nat.
Proof.
  split; [reflexivity|].
  exact (proj1 (proj2 (proj2 (streaming_sequential_in_order
                  no_gunzip stored_compress plain_json_dumps numbered_uuid
                  sample_voices sample_default_voice
                  sample_word_limit sample_audio_type sample_split
                  "tts" "" sample_credentials "Hello. Dify!" "" (Some "user")
                  3 sample_world
                  (fst (fst (fst sample_run))) (snd (fst (fst sample_run)))
                  (snd (fst sample_run)) (snd sample_run)
                  ltac:(vm_compute; reflexivity))))).
Defined.

(** * Further properties of the client *)

Section Further.

Variable gunzip_members : bytes -> outcome bytes.
Variable gzip_compress : bytes -> bytes.
Variable json_dumps : json -> string.
Variable uuid4_str : nat -> string.
Variable _get_model_word_limit : string -> gmap string string -> Z.
Variable _get_model_audio_type : string -> gmap string string -> string.
Variable _split_text_into_sentences : string -> Z -> list string.

Local Abbreviation parse := (_parse_response gunzip_members).
Local Abbreviation loop := (recv_loop gunzip_members).
Local Abbreviation cont := (continues gunzip_members).
Local Abbreviation encode := (full_client_request gzip_compress json_dumps).
Local Abbreviation session := (_get_audio_data gunzip_members gzip_compress json_dumps).
Local Abbreviation pulls :=
  (pull gunzip_members gzip_compress json_dumps uuid4_str
        _get_model_word_limit _get_model_audio_type _split_text_into_sentences).

Lemma header_of_Some (response : bytes) (h : header) {S} (s : S) :
  header_of response = Some h -> parse_header response s = (Ok h, s).
Proof.
  unfold header_of. destruct (parse_header response tt) as [[h'|e] u] eqn:H; [|discriminate].
  intros [= <-]. exact (parse_header_state _ _ _ _ s H).
Qed.

Lemma parse_skipped (response : bytes) (buf : BytesIO) :
  is_skipped response = true -> parse response buf = (Ok false, buf).
Proof.
  unfold is_skipped. destruct (header_of response) as [h|] eqn:H; [|discriminate].
  pose proof (header_of_Some _ _ buf H) as Hh.
  destruct (Z.eqb_spec (message_type h) 0xb) as [Hb|Hb].
  - intros Hf. apply Z.eqb_eq in Hf. exact (parse_audio_ack _ _ _ _ Hh Hb Hf).
  - intros Hn. apply andb_prop in Hn as [Hf Hc].
    apply negb_true_iff in Hf, Hc. apply Z.eqb_neq in Hf, Hc.
    exact (parse_other _ _ _ _ Hh Hb Hf Hc).
Qed.

Lemma parse_sequenced (response : bytes) (buf : BytesIO) :
  is_sequenced_audio response = true ->
  parse response buf = (Ok (frame_sequence response <? 0), buf ++ frame_audio response).
Proof.
  intros Hs. unfold frame_sequence, frame_audio. rewrite Hs.
  unfold is_sequenced_audio in Hs.
  destruct (header_of response) as [h|] eqn:H; [|discriminate].
  apply andb_prop in Hs as [Hb Hf].
  apply Z.eqb_eq in Hb. apply negb_true_iff in Hf. apply Z.eqb_neq in Hf.
  exact (parse_audio_data _ _ _ _ (header_of_Some _ _ buf H) Hb Hf).
Qed.

Lemma frame_audio_skipped (response : bytes) :
  is_skipped response = true -> frame_audio response = [].
Proof.
  unfold frame_audio, is_skipped, is_sequenced_audio.
  destruct (header_of response) as [h|]; [|reflexivity].
  destruct (message_type h =? 0xb); [|reflexivity].
  intros ->. reflexivity.
Qed.

Lemma parse_more (response : bytes) (buf : BytesIO) :
  more_frame response = true ->
  parse response buf = (Ok false, buf ++ frame_audio response).
Proof.
  unfold more_frame. intros H. apply orb_prop in H as [Hk | Hd].
  - rewrite (frame_audio_skipped _ Hk), app_nil_r. exact (parse_skipped _ _ Hk).
  - apply andb_prop in Hd as [Hs Hn]. rewrite (parse_sequenced _ _ Hs).
    apply Z.leb_le in Hn. apply Z.ltb_ge in Hn. rewrite Hn. reflexivity.
Qed.

Lemma parse_final (response : bytes) (buf : BytesIO) :
  final_frame response = true ->
  parse response buf = (Ok true, buf ++ frame_audio response).
Proof.
  unfold final_frame. intros H. apply andb_prop in H as [Hs Hn].
  rewrite (parse_sequenced _ _ Hs), Hn. reflexivity.
Qed.

Lemma continues_more (pre : list bytes) (buf : BytesIO) :
  forallb more_frame pre = true ->
  cont pre buf = Some (buf ++ concat (map frame_audio pre)).
Proof.
  revert buf. induction pre as [|f pre IH]; intros buf H.
  - cbn. rewrite app_nil_r. reflexivity.
  - cbn [forallb] in H. apply andb_prop in H as [Hf Hp].
    cbn [continues map concat]. rewrite (parse_more _ _ Hf), (IH _ Hp), app_assoc.
    reflexivity.
Qed.

(** A session on a connection that is accepted, from what its loop does. *)
Lemma get_audio_data_connected
      (request_json : json) (credentials : gmap string string) (key : string)
      (data : bytes) (w : world) (sc : script) (others : list script)
      (r : outcome bytes) (frames : list bytes) :
  encode request_json tt = (Ok data, tt) ->
  credentials !! "volc_access_key_id" = Some key ->
  servers w = sc :: others ->
  refuse sc = None ->
  (forall w0, loop (incoming sc) [] w0 = (r, received frames w0)) ->
  session request_json credentials w
  = (r, World others (uuid_calls w)
              (trace w ++ EvConnect (api_url credentials)
                                    [("Authorization", "Bearer; " +:+ key)]
                       :: EvSend data :: map EvRecv frames ++ [EvClose])).
Proof.
  intros He Hk Hs Hr L.
  rewrite get_audio_data_eq.
  rewrite (full_client_request_state _ _ _ _ _ _ w He), Hk, Hs, Hr, L.
  unfold ws_close, received. cbn [servers uuid_calls trace].
  rewrite <- !app_assoc. reflexivity.
Qed.

(** X4. The audio of a session is the concatenation, in the order of
    arrival, of what the audio frames with a sequence number carry after
    their 8-byte prefix, up to the first frame with a negative sequence
    number; acknowledgments and unknown frames add nothing, and what the
    server sends after the final frame is not received. *)
Theorem session_audio_is_concatenation
        (pre : list bytes) (final : bytes) (rest : list bytes) :
  forallb more_frame pre = true ->
  final_frame final = true ->
  let audio := concat (map frame_audio pre) ++ frame_audio final in
  (forall buf w,
      loop (pre ++ final :: rest) buf w
      = (Ok (buf ++ audio), received (pre ++ [final]) w)) /\
  (forall request_json credentials key data w others,
      encode request_json tt = (Ok data, tt) ->
      credentials !! "volc_access_key_id" = Some key ->
      servers w = Script None (pre ++ final :: rest) :: others ->
      session request_json credentials w
      = (Ok audio,
         World others (uuid_calls w)
               (trace w ++ EvConnect (api_url credentials)
                                     [("Authorization", "Bearer; " +:+ key)]
                        :: EvSend data :: map EvRecv (pre ++ [final]) ++ [EvClose]))).
Proof.
  intros Hpre Hfin audio.
  assert (L : forall buf w,
             loop (pre ++ final :: rest) buf w
             = (Ok (buf ++ audio), received (pre ++ [final]) w)).
  { intros buf w.
    rewrite (recv_loop_continues _ _ _ _ _ _ (continues_more pre buf Hpre)).
    rewrite recv_loop_cons, (parse_final _ _ Hfin), <- received_app.
    unfold audio. rewrite app_assoc. reflexivity. }
  split; [exact L|].
  intros request_json credentials key data w others He Hk Hs.
  apply (get_audio_data_connected _ _ _ _ _ _ _ _ _ He Hk Hs eq_refl).
  intros w0. apply L.
Qed.

(** X2. When the server closes the connection before a final frame, after
    frames that all ask for more, the receive loop raises [ConnectionClosed]
    and the session raises it too, once the connection is closed: the audio
    received so far is not returned. *)
Theorem stream_cut_before_final_frame (pre : list bytes) :
  forallb more_frame pre = true ->
  (forall buf w, loop pre buf w = (Raise ConnectionClosed, received pre w)) /\
  (forall request_json credentials key data w others,
      encode request_json tt = (Ok data, tt) ->
      credentials !! "volc_access_key_id" = Some key ->
      servers w = Script None pre :: others ->
      session request_json credentials w
      = (Raise ConnectionClosed,
         World others (uuid_calls w)
               (trace w ++ EvConnect (api_url credentials)
                                     [("Authorization", "Bearer; " +:+ key)]
                        :: EvSend data :: map EvRecv pre ++ [EvClose]))).
Proof.
  intros Hpre.
  assert (L : forall buf w, loop pre buf w = (Raise ConnectionClosed, received pre w)).
  { intros buf w. rewrite <- (app_nil_r pre) at 1.
    rewrite (recv_loop_continues _ _ _ _ _ _ (continues_more pre buf Hpre)).
    reflexivity. }
  split; [exact L|].
  intros request_json credentials key data w others He Hk Hs.
  apply (get_audio_data_connected _ _ _ _ _ _ _ _ _ He Hk Hs eq_refl).
  intros w0. apply L.
Qed.

(** X3. An acknowledgment, and a frame whose message type is neither audio,
    error nor frontend, is passed over: the decoder answers [False] and
    leaves the buffer alone, and a stream with such a frame in it has the
    result of the stream without it, whatever the other frames are. *)
Theorem skipped_frames_do_not_matter (response : bytes) :
  is_skipped response = true ->
  (forall buf, parse response buf = (Ok false, buf)) /\
  (forall pre rest buf w w0,
      fst (loop (pre ++ response :: rest) buf w) = fst (loop (pre ++ rest) buf w0)).
Proof.
  intros Hs. split; [intros buf; exact (parse_skipped _ _ Hs)|].
  induction pre as [|f pre IH]; intros rest buf w w0.
  - cbn [app]. rewrite recv_loop_cons, (parse_skipped _ _ Hs).
    apply recv_loop_result.
  - cbn [app]. rewrite !recv_loop_cons.
    destruct (parse f buf) as [[[|]|e] buf']; try reflexivity.
    apply IH.
Qed.

Lemma fold_left_bytes (t : bytes) (acc : Z) :
  fold_left (fun a b => a * 256 + byte_val b) t acc
  = acc * 2 ^ (8 * Z.of_nat (length t))
    + fold_left (fun a b => a * 256 + byte_val b) t 0.
Proof.
  revert acc. induction t as [|a t IH]; intros acc.
  - cbn. lia.
  - cbn [fold_left length]. rewrite (IH (acc * 256 + byte_val a)), (IH (0 * 256 + byte_val a)).
    replace (8 * Z.of_nat (S (length t))) with (8 * Z.of_nat (length t) + 8) by lia.
    rewrite Z.pow_add_r by lia. change (2 ^ 8) with 256. ring.
Qed.

Lemma int_from_bytes_unsigned_cons (b : byte) (t : bytes) :
  int_from_bytes_unsigned (b :: t)
  = byte_val b * 2 ^ (8 * Z.of_nat (length t)) + int_from_bytes_unsigned t.
Proof.
  unfold int_from_bytes_unsigned. cbn [fold_left]. rewrite fold_left_bytes.
  ring.
Qed.

Lemma int_from_bytes_signed_sign_bit (b : byte) (t : bytes) :
  (int_from_bytes_signed (b :: t) <? 0) = (128 <=? byte_val b).
Proof.
  pose proof (int_from_bytes_signed_negative (b :: t) ltac:(discriminate)) as N.
  rewrite int_from_bytes_unsigned_cons in N. cbn [length] in N.
  pose proof (int_from_bytes_unsigned_range t) as R.
  pose proof (byte_val_range b) as Rb.
  replace (8 * Z.of_nat (S (length t)) - 1) with (8 * Z.of_nat (length t) + 7) in N by lia.
  rewrite Z.pow_add_r in N by lia. change (2 ^ 7) with 128 in N.
  set (P := 2 ^ (8 * Z.of_nat (length t))) in *.
  assert (HP : 0 < P) by (apply Z.pow_pos_nonneg; lia).
  destruct (Z.ltb_spec (int_from_bytes_signed (b :: t)) 0) as [Hn | Hn];
    destruct (Z.leb_spec 128 (byte_val b)) as [Hb | Hb]; try reflexivity.
  - apply N in Hn. nia.
  - assert (P * 128 <= byte_val b * P + int_from_bytes_unsigned t) by nia.
    apply N in H. lia.
Qed.

(** X5. An audio frame with a sequence number and a payload that is not
    empty is the final one exactly when the first bit of its first payload
    byte is set, also when the payload has fewer than four bytes; which of
    the non-zero flags the frame carries plays no part. *)
Theorem final_frame_is_the_sign_bit
        (response : bytes) (h : header) (buf : BytesIO) (b : byte) (p : bytes) :
  parse_header response buf = (Ok h, buf) ->
  message_type h = 0xb ->
  message_type_specific_flags h <> 0 ->
  payload h = b :: p ->
  parse response buf = (Ok (128 <=? byte_val b), buf ++ drop 8 (payload h)).
Proof.
  intros H Ht Hf Hp.
  rewrite (parse_audio_data _ _ _ _ H Ht Hf), Hp. cbn [take].
  rewrite int_from_bytes_signed_sign_bit. reflexivity.
Qed.

(** X6. A frame that its header size covers entirely has an empty payload.
    Then an audio frame asks for more and appends nothing, even with a
    sequence number; an error frame raises the error code 0 with an empty
    message, whatever its compression; and a frontend frame ends the
    stream. *)
Theorem frame_with_empty_payload (response : bytes) (h : header) (buf : BytesIO) :
  parse_header response buf = (Ok h, buf) ->
  (length response <= Z.to_nat (header_size h * 4))%nat ->
  payload h = [] /\
  (message_type h = 0xb -> parse response buf = (Ok false, buf)) /\
  (message_type h = 0xf ->
   parse response buf = (Raise (InvokeBadRequestError "Error code 0: "), buf)) /\
  (message_type h = 0xc -> parse response buf = (Ok true, buf)).
Proof.
  intros H Hlen.
  assert (Hp : payload h = []).
  { destruct (parse_header_inv _ _ _ _ H) as [_ (b0 & b1 & b2 & rest & Hr & Hh)].
    rewrite Hh in Hlen |- *. cbn [payload header_size] in *.
    apply drop_ge. exact Hlen. }
  split; [exact Hp|]. split; [|split].
  - intros Ht. destruct (Z.eq_dec (message_type_specific_flags h) 0) as [Hz|Hz].
    + exact (parse_audio_ack _ _ _ _ H Ht Hz).
    + rewrite (parse_audio_data _ _ _ _ H Ht Hz), Hp. cbn. rewrite app_nil_r.
      reflexivity.
  - intros Ht. rewrite (parse_error _ _ _ _ H Ht), Hp. cbn [take drop gzip_decompress].
    destruct (message_compression h =? 1); reflexivity.
  - intros Ht. rewrite (parse_frontend _ _ _ _ H Ht), Hp. cbn [drop gzip_decompress].
    destruct (message_compression h =? 1); reflexivity.
Qed.

(** X10. The audio buffer only grows: whatever the frame, the decoder leaves
    the buffer with its former contents at the front, and the audio a
    receive loop returns starts with what the buffer held when the loop
    began. *)
Theorem buffer_only_grows :
  (forall response (buf : BytesIO),
      exists tail, snd (_parse_response gunzip_members response buf) = buf ++ tail) /\
  (forall ws (buf : BytesIO) w audio w',
      recv_loop gunzip_members ws buf w = (Ok audio, w') ->
      exists tail, audio = buf ++ tail).
Proof.
  assert (P : forall response buf, exists tail, snd (parse response buf) = buf ++ tail).
  { intros response buf.
    destruct (parse_buffer gunzip_members response buf) as [-> | (h & _ & _ & _ & ->)].
    - exists []. rewrite app_nil_r. reflexivity.
    - eauto. }
  split; [exact P|].
  induction ws as [|f ws IH]; intros buf w audio w' H.
  - discriminate.
  - rewrite recv_loop_cons in H. destruct (P f buf) as [t Ht].
    destruct (parse f buf) as [[[|]|e] buf'] eqn:E; cbn [snd] in Ht; subst buf'.
    + injection H as <- _. eauto.
    + apply IH in H as [t' ->]. exists (t ++ t'). rewrite app_assoc. reflexivity.
    + discriminate.
Qed.

(** A session whose request does not fit the 4-byte length, or whose
    credentials have no access key, stops before it connects. *)
Lemma get_audio_data_overflow (request_json : json) (credentials : gmap string string)
      (w : world) :
  2 ^ 32 <= Z.of_nat (length (gzip_compress (str_encode (json_dumps request_json)))) ->
  session request_json credentials w = (Raise OverflowError, w).
Proof.
  intros Hlen. rewrite get_audio_data_eq, full_client_request_eq. unfold to_bytes4.
  apply Z.ltb_ge in Hlen. rewrite Hlen, andb_false_r. reflexivity.
Qed.

Lemma get_audio_data_missing_key (request_json : json) (credentials : gmap string string)
      (w : world) :
  Z.of_nat (length (gzip_compress (str_encode (json_dumps request_json)))) < 2 ^ 32 ->
  credentials !! "volc_access_key_id" = None ->
  session request_json credentials w = (Raise (KeyError "volc_access_key_id"), w).
Proof.
  intros Hlen Hk. rewrite get_audio_data_eq, full_client_request_eq.
  destruct (to_bytes4_ok _ (conj (Zle_0_nat _) Hlen)) as [len4 ->].
  rewrite Hk. reflexivity.
Qed.

Lemma pull_missing_key (base : json) (credentials : gmap string string)
      (sentence : string) (ss : list string) (n : nat) (w : world) :
  Z.of_nat (length (gzip_compress (str_encode (json_dumps
     (sentence_request base (uuid4_str (uuid_calls w)) sentence))))) < 2 ^ 32 ->
  credentials !! "volc_access_key_id" = None ->
  pulls (S n) (GenSuspended base credentials (sentence :: ss)) w
  = ([], Raised (KeyError "volc_access_key_id"), GenFinished, after_uuid w).
Proof.
  intros Hlen Hk. cbn [pull gen_next].
  rewrite for_sentences_cons, (get_audio_data_missing_key _ _ _ Hlen Hk). reflexivity.
Qed.

(** X1. A session fails before it connects, leaving the network untouched,
    when the compressed request has 2^32 bytes or more ([OverflowError] from
    the 4-byte length) and, otherwise, when the credentials have no
    ["volc_access_key_id"] ([KeyError]); the generator then gives its caller
    that exception and no chunk. *)
Theorem session_fails_before_connecting
        (request_json : json) (credentials : gmap string string) (w : world) :
  let payload_bytes := gzip_compress (str_encode (json_dumps request_json)) in
  (2 ^ 32 <= Z.of_nat (length payload_bytes) ->
   session request_json credentials w = (Raise OverflowError, w)) /\
  (Z.of_nat (length payload_bytes) < 2 ^ 32 ->
   credentials !! "volc_access_key_id" = None ->
   session request_json credentials w = (Raise (KeyError "volc_access_key_id"), w)) /\
  (forall base sentence ss n,
      request_json = sentence_request base (uuid4_str (uuid_calls w)) sentence ->
      Z.of_nat (length payload_bytes) < 2 ^ 32 ->
      credentials !! "volc_access_key_id" = None ->
      pulls (S n) (GenSuspended base credentials (sentence :: ss)) w
      = ([], Raised (KeyError "volc_access_key_id"), GenFinished, after_uuid w)).
Proof.
  intros payload_bytes. split; [|split].
  - apply get_audio_data_overflow.
  - apply get_audio_data_missing_key.
  - intros base sentence ss n -> Hlen Hk. exact (pull_missing_key _ _ _ _ _ _ Hlen Hk).
Qed.

(** X7. A text that the splitter cuts into no sentence gives a generator
    that stops at its first [next]: no chunk, no connection, nothing sent;
    a uuid is still drawn for the user id when the caller gave none. *)
Theorem no_sentence_no_connection
        (model : string) (credentials : gmap string string)
        (content_text voice : string) (user : option string) (n : nat) (w : world) :
  _split_text_into_sentences content_text (_get_model_word_limit model credentials) = [] ->
  pulls (S n) (_invoke_streaming model credentials content_text voice user) w
  = ([], Stopped, GenFinished,
     World (servers w) (uuid_calls w + uid_draws user) (trace w)).
Proof.
  intros Hs. rewrite pull_created_eq, Hs. reflexivity.
Qed.

(** The requests of a generator suspended in its loop: the i-th frame sent
    is the request of the i-th sentence, with the i-th uuid drawn. *)
Lemma pull_suspended_requests (base : json) (credentials : gmap string string) (n : nat) :
  forall (ss : list string) (w : world) out e g' w',
    pulls n (GenSuspended base credentials ss) w = (out, e, g', w') ->
    exists evs,
      trace w' = trace w ++ evs /\
      forall i data,
        sends evs !! i = Some data ->
        exists sentence,
          ss !! i = Some sentence /\
          encode (sentence_request base (uuid4_str (uuid_calls w + i)) sentence) tt
          = (Ok data, tt).
Proof.
  induction n as [|n IH]; intros ss w out e g' w' H.
  - injection H as <- <- <- <-. exists []. rewrite app_nil_r.
    split; [reflexivity|]. intros i data Hi. discriminate.
  - cbn [pull gen_next] in H. destruct ss as [|s ss].
    + cbn in H. injection H as <- <- <- <-. exists []. rewrite app_nil_r.
      split; [reflexivity|]. intros i data Hi. discriminate.
    + rewrite for_sentences_cons in H.
      destruct (session _ _ _) as [[chunk|ex] w2] eqn:E.
      * destruct (pulls n (GenSuspended base credentials ss) w2)
          as [[[out' e'] g''] w''] eqn:P.
        injection H as <- <- <- <-.
        apply get_audio_data_run in E
          as (Hu & evs & Ht & _ & Hsent & (data & Hd) & _).
        destruct Hsent as [Hn | (data' & Hd' & Henc)]; [congruence|].
        assert (data' = data) as -> by congruence.
        destruct (IH _ _ _ _ _ _ P) as (evs' & Ht' & Hreq).
        exists (evs ++ evs'). rewrite Ht', Ht. cbn [after_uuid trace].
        rewrite <- app_assoc. split; [reflexivity|].
        rewrite sends_app, Hd. intros [|i] d Hi.
        -- injection Hi as <-. exists s. rewrite Nat.add_0_r.
           split; [reflexivity | exact Henc].
        -- cbn in Hi. destruct (Hreq i d Hi) as (sentence & Hl & Hx).
           exists sentence. split; [exact Hl|].
           rewrite Hu in Hx. cbn [after_uuid uuid_calls] in Hx.
           replace (uuid_calls w + S i)%nat with (S (uuid_calls w) + i)%nat by lia.
           exact Hx.
      * injection H as <- <- <- <-.
        apply get_audio_data_run in E as (_ & evs & Ht & _ & Hsent & _).
        exists evs. rewrite Ht. split; [reflexivity|].
        destruct Hsent as [-> | (data & -> & Henc)]; intros [|i] d Hi; try discriminate.
        injection Hi as <-. exists s. rewrite Nat.add_0_r.
        split; [reflexivity | exact Henc].
Qed.

(** X8. All the requests of a run share one base: the application fields
    read from the credentials, the voice, the encoding and one user id, the
    caller's or else a uuid drawn once at the start. The i-th frame sent is
    that base with a ["request"] entry holding the i-th sentence, the next
    uuid drawn as request id, text type "plain" and operation "submit". *)
Theorem requests_of_a_run
        (model : string) (credentials : gmap string string)
        (content_text voice : string) (user : option string)
        (n : nat) (w : world) out e g' w' :
  pulls n (_invoke_streaming model credentials content_text voice user) w
  = (out, e, g', w') ->
  let base :=
      base_request credentials (run_uid uuid4_str user w) voice
                   (_get_model_audio_type model credentials) in
  let sentences :=
      _split_text_into_sentences content_text (_get_model_word_limit model credentials) in
  (exists evs,
      trace w' = trace w ++ evs /\
      forall i data,
        sends evs !! i = Some data ->
        exists sentence,
          sentences !! i = Some sentence /\
          encode (sentence_request base
                    (uuid4_str (uuid_calls w + uid_draws user + i)) sentence) tt
          = (Ok data, tt)) /\
  (forall reqid sentence,
      let request := sentence_request base reqid sentence in
      dict_get "app" request = dict_get "app" base /\
      dict_get "user" request = Some (JDict [("uid", JStr (run_uid uuid4_str user w))]) /\
      dict_get "audio" request = dict_get "audio" base /\
      dict_get "request" request
      = Some (JDict [("reqid", JStr reqid); ("text", JStr sentence);
                     ("text_type", JStr "plain"); ("operation", JStr "submit")])).
Proof.
  intros H base sentences. split; [|intros reqid sentence; repeat split].
  destruct n as [|n].
  - injection H as <- <- <- <-. exists []. rewrite app_nil_r.
    split; [reflexivity|]. intros i data Hi. discriminate.
  - rewrite pull_created_eq in H.
    apply pull_suspended_requests in H as (evs & Ht & Hreq).
    exists evs. split; [exact Ht|]. exact Hreq.
Qed.

(** Consuming a generator in two goes is consuming it in one. *)
Lemma pull_add (n m : nat) :
  forall g w,
    pulls (n + m) g w
    = match pulls n g w with
      | (out, Suspended, g', w') =>
        let '(out2, e2, g2, w2) := pulls m g' w' in (out ++ out2, e2, g2, w2)
      | r => r
      end.
Proof.
  induction n as [|n IH]; intros g w.
  - cbn [Nat.add pull]. destruct (pulls m g w) as [[[out2 e2] g2] w2]. reflexivity.
  - cbn [Nat.add pull].
    destruct (gen_next _ _ _ _ _ _ _ g w) as [[[[chunk|] g1]|ex] w1]; try reflexivity.
    rewrite IH. destruct (pulls n g1 w1) as [[[out e] g'] w'].
    destruct e; try reflexivity.
    destruct (pulls m g' w') as [[[out2 e2] g2] w2]. reflexivity.
Qed.

(** Every chunk a generator has yielded cost one connection and one frame. *)
Lemma pull_suspended_servers (base : json) (credentials : gmap string string) (n : nat) :
  forall (ss : list string) (w : world) out e g' w',
    pulls n (GenSuspended base credentials ss) w = (out, e, g', w') ->
    exists evs,
      trace w' = trace w ++ evs /\
      match e with
      | Raised _ => True
      | _ => servers w' = drop (length out) (servers w) /\
             length (sends evs) = length out
      end.
Proof.
  induction n as [|n IH]; intros ss w out e g' w' H.
  - injection H as <- <- <- <-. exists []. rewrite app_nil_r. repeat split.
  - cbn [pull gen_next] in H. destruct ss as [|s ss].
    + cbn in H. injection H as <- <- <- <-. exists []. rewrite app_nil_r. repeat split.
    + rewrite for_sentences_cons in H.
      destruct (session _ _ _) as [[chunk|ex] w2] eqn:E.
      * destruct (pulls n (GenSuspended base credentials ss) w2)
          as [[[out' e'] g''] w''] eqn:P.
        injection H as <- <- <- <-.
        apply get_audio_data_run in E
          as (_ & evs & Ht & _ & _ & (data & Hd) & sc & Hs & _).
        destruct (IH _ _ _ _ _ _ P) as (evs' & Ht' & D).
        exists (evs ++ evs'). rewrite Ht', Ht. cbn [after_uuid trace].
        rewrite <- app_assoc. split; [reflexivity|].
        cbn [after_uuid servers] in Hs.
        destruct e'; [| |exact I]; destruct D as [D1 D2];
          rewrite Hs, sends_app, Hd; cbn [length drop app]; rewrite D1, D2; split; reflexivity.
      * injection H as <- <- <- <-.
        apply get_audio_data_run in E as (_ & evs & Ht & _).
        exists evs. split; [exact Ht | exact I].
Qed.

(** X9. A caller that takes n chunks and stops has caused n sessions and no
    more: n connections are used up, n frames were sent, and taking m more
    chunks later gives what taking n + m at once gives. *)
Theorem chunks_are_made_on_demand
        (model : string) (credentials : gmap string string)
        (content_text voice : string) (user : option string)
        (n : nat) (w : world) out g' w' :
  pulls n (_invoke_streaming model credentials content_text voice user) w
  = (out, Suspended, g', w') ->
  length out = n /\
  servers w' = drop n (servers w) /\
  (exists evs, trace w' = trace w ++ evs /\ length (sends evs) = n) /\
  (forall m,
      pulls (n + m) (_invoke_streaming model credentials content_text voice user) w
      = let '(out2, e2, g2, w2) := pulls m g' w' in (out ++ out2, e2, g2, w2)).
Proof.
  intros H.
  assert (R : forall m,
             pulls (n + m) (_invoke_streaming model credentials content_text voice user) w
             = let '(out2, e2, g2, w2) := pulls m g' w' in (out ++ out2, e2, g2, w2)).
  { intros m. rewrite pull_add, H. reflexivity. }
  destruct n as [|n].
  - injection H as <- <- <-. repeat split; try exact R.
    exists []. rewrite app_nil_r. split; reflexivity.
  - rewrite pull_created_eq in H. pose proof H as H'.
    apply pull_suspended_servers in H as (evs & Ht & Hs & Hl).
    apply pull_suspended in H' as (_ & _ & runs & _ & _ & _ & Hn & _).
    cbn [servers trace] in Hs, Ht. rewrite Hn in Hs, Hl.
    split; [exact Hn|]. split; [exact Hs|]. split; [|exact R].
    exists evs. split; [exact Ht | exact Hl].
Qed.

End Further.

Section ValidationFacts.

Variable gunzip_members : bytes -> outcome bytes.
Variable gzip_compress : bytes -> bytes.
Variable json_dumps : json -> string.
Variable uuid4_str : nat -> string.
Variable get_tts_model_voices : string -> gmap string string -> list voice_entry.
Variable _get_model_default_voice : string -> gmap string string -> string.
Variable _get_model_word_limit : string -> gmap string string -> Z.
Variable _get_model_audio_type : string -> gmap string string -> string.
Variable _split_text_into_sentences : string -> Z -> list string.

Local Abbreviation pulls :=
  (pull gunzip_members gzip_compress json_dumps uuid4_str
        _get_model_word_limit _get_model_audio_type _split_text_into_sentences).
Local Abbreviation invoke := (_invoke get_tts_model_voices _get_model_default_voice).
Local Abbreviation validate :=
  (validate_credentials get_tts_model_voices _get_model_default_voice).

(** X11. Validating credentials contacts no server: the generator that
    [_invoke] returns is never advanced, so the validation succeeds and
    leaves the network untouched whatever the credentials are, also for
    credentials without access key, with which the first [next] of that
    very generator raises [KeyError]. *)
Theorem validation_contacts_no_server
        (model : string) (credentials : gmap string string) (user : option string)
        (w : world) :
  validate model credentials user w = (inr tt, w) /\
  (credentials !! "volc_access_key_id" = None ->
   _split_text_into_sentences "Hello Dify!" (_get_model_word_limit model credentials) <> [] ->
   (forall request,
       Z.of_nat (length (gzip_compress (str_encode (json_dumps request)))) < 2 ^ 32) ->
   forall n,
     exists w',
       pulls (S n)
             (invoke model "" credentials "Hello Dify!"
                     (_get_model_default_voice model credentials) user) w
       = ([], Raised (KeyError "volc_access_key_id"), GenFinished, w') /\
       servers w' = servers w /\ trace w' = trace w).
Proof.
  split; [reflexivity|].
  intros Hk Hs Hlen n. unfold _invoke.
  match goal with |- context [_invoke_streaming _ _ _ ?x _] => generalize x end.
  intros v. rewrite pull_created_eq.
  destruct (_split_text_into_sentences "Hello Dify!" _) as [|s ss]; [contradiction|].
  rewrite pull_missing_key; [| apply Hlen | exact Hk].
  eexists. split; [reflexivity|]. split; reflexivity.
Qed.

End ValidationFacts.

(** * The further properties on the sample frames *)

(** Credentials without access key: [KeyError], nothing on the network. *)
Lemma missing_key_witness :
  _get_audio_data no_gunzip stored_compress const_json_dumps (JDict [])
                  no_credentials sample_world
  = (Raise (KeyError "volc_access_key_id"), sample_world).
Proof.
  refine (proj1 (proj2 (session_fails_before_connecting
                          no_gunzip stored_compress const_json_dumps numbered_uuid
                          sample_word_limit sample_audio_type sample_split
                          (JDict []) no_credentials sample_world)) _ eq_refl).
  reflexivity.
Defined.

(** A connection closed after an acknowledgment and a first audio frame. *)
Lemma stream_cut_witness :
  recv_loop no_gunzip [frame_ack; frame_audio_more] [] sample_world
  = (Raise ConnectionClosed, received [frame_ack; frame_audio_more] sample_world).
Proof.
  exact (proj1 (stream_cut_before_final_frame
                  no_gunzip stored_compress plain_json_dumps
                  [frame_ack; frame_audio_more] eq_refl)
               [] sample_world).
Defined.

(** A frame of message type 9 among the audio frames. *)
Lemma skipped_frame_witness :
  fst (recv_loop no_gunzip ([frame_audio_more] ++ frame_unknown :: [frame_audio_final])
                 [] sample_world)
  = fst (recv_loop no_gunzip ([frame_audio_more] ++ [frame_audio_final]) [] sample_world).
Proof.
  exact (proj2 (skipped_frames_do_not_matter no_gunzip frame_unknown eq_refl)
               [frame_audio_more] [frame_audio_final] [] sample_world sample_world).
Defined.

(** "ab" then "cd"; the frame after the final one is not received. *)
Lemma concatenation_witness :
  recv_loop no_gunzip ([frame_ack; frame_audio_more] ++ frame_audio_final :: [frame_error])
            [] sample_world
  = (Ok (str_encode "abcd"),
     received ([frame_ack; frame_audio_more] ++ [frame_audio_final]) sample_world).
Proof.
  exact (proj1 (session_audio_is_concatenation
                  no_gunzip stored_compress plain_json_dumps
                  [frame_ack; frame_audio_more] frame_audio_final [frame_error]
                  eq_refl eq_refl)
               [] sample_world).
Defined.

(** A payload of three bytes ff ff ff: the first bit is set, the frame is
    final. *)
Lemma sign_bit_witness :
  _parse_response no_gunzip frame_audio_no_prefix (str_encode "ab")
  = (Ok true, str_encode "ab").
Proof.
  refine (final_frame_is_the_sign_bit
            no_gunzip frame_audio_no_prefix
            (Header 0xb 1 0 1 [xff; xff; xff]) (str_encode "ab") xff [xff; xff]
            eq_refl eq_refl _ eq_refl).
  discriminate.
Defined.

(** A header size of two words on a frame of eight bytes, and an error frame
    of four bytes marked as gzip. *)
Lemma empty_payload_witness :
  _parse_response no_gunzip frame_audio_all_header (str_encode "ab")
  = (Ok false, str_encode "ab") /\
  _parse_response no_gunzip frame_error_empty (str_encode "ab")
  = (Raise (InvokeBadRequestError "Error code 0: "), str_encode "ab").
Proof.
  split.
  - refine (proj1 (proj2 (frame_with_empty_payload
                            no_gunzip frame_audio_all_header
                            (Header 0xb 1 0 2 []) (str_encode "ab") eq_refl _))
                  eq_refl).
    cbn. lia.
  - refine (proj1 (proj2 (proj2 (frame_with_empty_payload
                                   no_gunzip frame_error_empty
                                   (Header 0xf 0 1 1 []) (str_encode "ab") eq_refl _)))
                  eq_refl).
    cbn. lia.
Defined.

(** A text without sentences, no user: one uuid drawn, nothing else. *)
Lemma no_sentence_witness :
  pull no_gunzip stored_compress plain_json_dumps numbered_uuid
       sample_word_limit sample_audio_type no_split 2
       (_invoke_streaming "tts" sample_credentials "" "BV001" None) sample_world
  = ([], Stopped, GenFinished, World (servers sample_world) 1 []).
Proof.
  exact (no_sentence_no_connection
           no_gunzip stored_compress plain_json_dumps numbered_uuid
           sample_word_limit sample_audio_type no_split
           "tts" sample_credentials "" "BV001" None 1 sample_world eq_refl).
Defined.

(** The two requests of the sample run. *)
Lemma requests_witness :
  exists evs,
    trace (snd (sample_stream 3)) = trace sample_world ++ evs /\
    forall i data,
      sends evs !! i = Some data ->
      exists sentence,
        sample_split "Hello. Dify!" 20 !! i = Some sentence /\
        full_client_request stored_compress plain_json_dumps
          (sentence_request (base_request sample_credentials "user" "BV001" "mp3")
                            (numbered_uuid (0 + 0 + i)) sentence) tt
        = (Ok data, tt).
Proof.
  exact (proj1 (requests_of_a_run
                  no_gunzip stored_compress plain_json_dumps numbered_uuid
                  sample_word_limit sample_audio_type sample_split
                  "tts" sample_credentials "Hello. Dify!" "BV001" (Some "user")
                  3 sample_world
                  (fst (fst (fst (sample_stream 3)))) (snd (fst (fst (sample_stream 3))))
                  (snd (fst (sample_stream 3))) (snd (sample_stream 3))
                  ltac:(vm_compute; reflexivity))).
Defined.

(** One chunk taken: one connection used, one left. *)
Lemma on_demand_witness :
  fst (fst (fst sample_first)) = [str_encode "abcd"] /\
  servers (snd sample_first) = [Script None [frame_error]].
Proof.
  split; [reflexivity|].
  exact (proj1 (proj2 (chunks_are_made_on_demand
                  no_gunzip stored_compress plain_json_dumps numbered_uuid
                  sample_word_limit sample_audio_type sample_split
                  "tts" sample_credentials "Hello. Dify!" "BV001" (Some "user")
                  1 sample_world
                  (fst (fst (fst sample_first))) (snd (fst sample_first))
                  (snd sample_first)
                  ltac:(vm_compute; reflexivity)))).
Defined.

(** The audio of the sample stream starts with what the buffer held. *)
Lemma buffer_grows_witness :
  exists tail, str_encode "zzabcd" = str_encode "zz" ++ tail.
Proof.
  exact (proj2 (buffer_only_grows no_gunzip)
               [frame_ack; frame_audio_more; frame_audio_final] (str_encode "zz")
               sample_world (str_encode "zzabcd")
               (received [frame_ack; frame_audio_more; frame_audio_final] sample_world)
               eq_refl).
Defined.

(** Validation of credentials that have no access key. *)
Lemma validation_witness :
  validate_credentials sample_voices sample_default_voice "tts" no_credentials None
                       sample_world
  = (inr tt, sample_world) /\
  exists w',
    pull no_gunzip stored_compress const_json_dumps numbered_uuid
         sample_word_limit sample_audio_type sample_split 1
         (_invoke sample_voices sample_default_voice "tts" "" no_credentials
                  "Hello Dify!" (sample_default_voice "tts" no_credentials) None)
         sample_world
    = ([], Raised (KeyError "volc_access_key_id"), GenFinished, w') /\
    servers w' = servers sample_world /\ trace w' = trace sample_world.
Proof.
  destruct (validation_contacts_no_server
              no_gunzip stored_compress const_json_dumps numbered_uuid
              sample_voices sample_default_voice
              sample_word_limit sample_audio_type sample_split
              "tts" no_credentials None sample_world) as [V P].
  split; [exact V|].
  refine (P eq_refl _ _ 0%nat).
  - discriminate.
  - intros request. reflexivity.
Defined.
